(** * Store orchestrator: provisioning and teardown of per-tenant stacks

    A shallow embedding of [orchestrator/main.py]: the command executor
    [run_command], the routing conflict checker [ingress_host_exists], and
    the two request handlers [create_store] and [delete_store], together
    with the process-wide registry [stores].

    Text is modelled by [string] over 8-bit characters read as the code
    points 0..255; [lower] and [strip] are Python's [str.lower] and
    [str.strip] on that range.  Everything outside the module (the
    subprocess, [uuid], [secrets], the clock, the JSON decoder) is reached
    through the [Platform] interface. *)

From Stdlib Require Import ZArith Ascii String List Lia.
From Stdlib Require Import Floats.SpecFloat.
From stdpp Require Import base option gmap strings list fin_maps.

Local Set Warnings "-register-all,-clear-no-such-hyp".

Local Open Scope string_scope.
Local Open Scope Z_scope.
Local Open Scope list_scope.

(** ** Python text primitives *)

Module Text.

(** [str.isspace] on one character. *)
Definition is_space (c : ascii) : bool :=
  let n := N_of_ascii c in
  ((9 <=? n) && (n <=? 13) || (28 <=? n) && (n <=? 32)
   || (n =? 133) || (n =? 160))%N.

(** The case mapping of [str.lower] on one character. *)
Definition lower_char (c : ascii) : ascii :=
  let n := N_of_ascii c in
  if ((65 <=? n) && (n <=? 90)
      || (192 <=? n) && (n <=? 222) && negb (n =? 215))%N
  then ascii_of_N (n + 32) else c.

Fixpoint lower (s : string) : string :=
  match s with
  | EmptyString => EmptyString
  | String c s' => String (lower_char c) (lower s')
  end.

Fixpoint lstrip (s : string) : string :=
  match s with
  | EmptyString => EmptyString
  | String c s' => if is_space c then lstrip s' else s
  end.

Fixpoint rstrip (s : string) : string :=
  match s with
  | EmptyString => EmptyString
  | String c s' =>
      match rstrip s' with
      | EmptyString => if is_space c then EmptyString else String c EmptyString
      | r => String c r
      end
  end.

(** [s.strip()] *)
Definition strip (s : string) : string := rstrip (lstrip s).

(** [needle in hay] *)
Fixpoint contains (needle hay : string) : bool :=
  String.prefix needle hay ||
  match hay with
  | EmptyString => false
  | String _ hay' => contains needle hay'
  end.

(** [s[:n]] *)
Fixpoint take (n : nat) (s : string) : string :=
  match n, s with
  | S n', String c s' => String c (take n' s')
  | _, _ => EmptyString
  end.

(** [a or b] on strings: the empty string is the only falsy one. *)
Definition or_else (a b : string) : string :=
  match a with
  | EmptyString => b
  | _ => a
  end.

(** [not s] *)
Definition is_empty (s : string) : bool :=
  match s with
  | EmptyString => true
  | _ => false
  end.

End Text.

(** ** Outcomes of Python code *)

Inductive py_exception : Type :=
  | AttributeError
  | TypeError
  | KeyError.

(** A call returns, raises [HTTPException(status_code, detail)], or lets a
    Python exception escape. *)
Inductive outcome (A : Type) : Type :=
  | Return (a : A)
  | HTTPException (status_code : Z) (detail : string)
  | Uncaught (e : py_exception).

Arguments Return {A} a.
Arguments HTTPException {A} status_code detail.
Arguments Uncaught {A} e.

Definition obind {A B} (o : outcome A) (k : A -> outcome B) : outcome B :=
  match o with
  | Return a => k a
  | HTTPException c d => HTTPException c d
  | Uncaught e => Uncaught e
  end.

(** ** JSON values as [json.loads] builds them *)

Inductive json : Type :=
  | JNull
  | JBool (b : bool)
  | JInt (n : Z)
  | JFloat (f : spec_float)
  | JStr (s : string)
  | JArr (xs : list json)
  | JObj (kv : list (string * json)).

Module Py.

Fixpoint assoc (key : string) (kv : list (string * json)) : option json :=
  match kv with
  | [] => None
  | (k, v) :: kv' => if String.eqb k key then Some v else assoc key kv'
  end.

(** [v.get(key, dflt)]: only a dict has the method. *)
Definition get (v : json) (key : string) (dflt : json) : outcome json :=
  match v with
  | JObj kv => Return (default dflt (assoc key kv))
  | _ => Uncaught AttributeError
  end.

(** Truth value of a decoded value, as [or] and [if] test it. *)
Definition truthy (v : json) : bool :=
  match v with
  | JNull => false
  | JBool b => b
  | JInt n => negb (n =? 0)
  | JFloat (S754_zero _) => false
  | JFloat _ => true
  | JStr s => negb (Text.is_empty s)
  | JArr xs => match xs with [] => false | _ => true end
  | JObj kv => match kv with [] => false | _ => true end
  end.

(** [x or y] *)
Definition or_else (x y : json) : json := if truthy x then x else y.

(** The elements a [for] loop walks through: the elements of a list, the
    keys of a dict, the characters of a string; nothing else iterates. *)
Definition iter (v : json) : outcome (list json) :=
  match v with
  | JArr xs => Return xs
  | JObj kv => Return (map (fun p => JStr (fst p)) kv)
  | JStr s =>
      Return (map (fun c => JStr (String c EmptyString)) (list_ascii_of_string s))
  | _ => Uncaught TypeError
  end.

(** [v == s] for a [str] value [s]. *)
Definition eq_str (v : json) (s : string) : bool :=
  match v with
  | JStr t => String.eqb t s
  | _ => false
  end.

End Py.

(** ** The platform the module runs on *)

(** What [subprocess.run] did: it completed with an exit status and the two
    captured streams, or it raised (time-out, launch failure) with the
    text [str(e)]. *)
Inductive completed : Type :=
  | CompletedProcess (returncode : Z) (stdout stderr : string)
  | RunRaised (message : string).

(** Library calls of the module.  The impure ones thread a world [W]. *)
Class Platform (W : Type) : Type := {
  subprocess_run : list string -> option string -> Z -> W -> completed * W;
  uuid4_str : W -> string * W;
  token_urlsafe : nat -> W -> string * W;
  utcnow_isoformat : W -> string * W;
  json_loads : string -> option json;
  format_value : json -> string
}.

(** Absolute paths fixed at start-up by [_init_paths]. *)
Record paths : Type := {
  REPO_ROOT : string;
  CHART_PATH : string;
  VALUES_LOCAL : string;
  VALUES_PROD : string
}.

(** ** Data model *)

Inductive status_t : Type := Provisioning | Ready | Failed.

Definition status_str (s : status_t) : string :=
  match s with
  | Provisioning => "Provisioning"
  | Ready => "Ready"
  | Failed => "Failed"
  end.

(** One entry of [stores]. *)
Record store_record : Type := {
  id : string;
  store_name : string;
  namespace : string;
  domain : string;
  status : status_t;
  helm_release : string;
  environment : string;
  created_at : string
}.

Definition with_status (s : status_t) (r : store_record) : store_record :=
  {| id := id r; store_name := store_name r; namespace := namespace r;
     domain := domain r; status := s; helm_release := helm_release r;
     environment := environment r; created_at := created_at r |}.

Record StoreRequest : Type := {
  req_store_name : string;
  req_domain : string;
  req_environment : string
}.

Record StoreResponse : Type := {
  resp_id : string;
  resp_store_name : string;
  resp_namespace : string;
  resp_domain : string;
  resp_status : string;
  resp_helm_release : string;
  resp_created_at : option string
}.

(** The response built from a record by keyword expansion; the
    [environment] key is not a field of it. *)
Definition response_of (r : store_record) : StoreResponse :=
  {| resp_id := id r; resp_store_name := store_name r;
     resp_namespace := namespace r; resp_domain := domain r;
     resp_status := status_str (status r);
     resp_helm_release := helm_release r;
     resp_created_at := Some (created_at r) |}.

(** What [delete_store] answers. *)
Inductive delete_response : Type :=
  | Deleted (release ns : string)
  | UninstallError (helm_err : string) (rc2 : Z) (out2 err2 : string).

(** What [ingress_host_exists] answers on a match. *)
Record conflict_info : Type := {
  conflict_namespace : json;
  conflict_ingress : json
}.

(** ** Handler state and its monad *)

(** The effects of a handler, in the order they happen: a subprocess
    launched by [run_command], an identifier drawn, a write to [stores]. *)
Inductive event : Type :=
  | Ran (cmd : list string) (cwd : option string) (timeout : Z)
  | DrewUuid (u : string)
  | Stored (store_id : string)
  | Marked (store_id : string) (s : status_t)
  | Removed (store_id : string).

Record state (W : Type) : Type := {
  world : W;
  stores : gmap string store_record;
  journal : list event
}.

Arguments world {W} _.
Arguments stores {W} _.
Arguments journal {W} _.

Definition M (W A : Type) : Type := state W -> outcome A * state W.

Definition ret {W A} (a : A) : M W A := fun st => (Return a, st).

Definition bind {W A B} (m : M W A) (k : A -> M W B) : M W B :=
  fun st =>
    match m st with
    | (Return a, st') => k a st'
    | (HTTPException c d, st') => (HTTPException c d, st')
    | (Uncaught e, st') => (Uncaught e, st')
    end.

Definition raise_http {W A} (code : Z) (detail : string) : M W A :=
  fun st => (HTTPException code detail, st).

(** A pure computation that may raise, run inside a handler. *)
Definition lift {W A} (o : outcome A) : M W A := fun st => (o, st).

Declare Scope handler_scope.
Delimit Scope handler_scope with handler.
Notation "'let*' x ':=' m 'in' k" := (bind m (fun x => k))
  (at level 10, x pattern, m at level 100, k at level 200) : handler_scope.

Local Open Scope handler_scope.

(** ** The module's functions *)

Section Orchestrator.

Context {W : Type} `{Platform W}.
Variable P : paths.

Definition log_event (e : event) (w : W) (st : state W) : state W :=
  {| world := w; stores := stores st; journal := journal st ++ [e] |}.

(** The triple [run_command] returns for what [subprocess.run] did: the
    exit code with both streams trimmed, or code 254 with the text of the
    exception. *)
Definition folded (proc : completed) : Z * string * string :=
  match proc with
  | CompletedProcess rc so se => (rc, Text.strip so, Text.strip se)
  | RunRaised e => (254, EmptyString, e)
  end.

(** [run_command(cmd, cwd, timeout)]: never raises. *)
Definition run_command (cmd : list string) (cwd : option string)
    (timeout : Z) : M W (Z * string * string) :=
  fun st =>
    let (proc, w) := subprocess_run cmd cwd timeout (world st) in
    (Return (folded proc), log_event (Ran cmd cwd timeout) w st).

(** The inner loop of [ingress_host_exists]: the rules of one item. *)
Fixpoint scan_rules (host : string) (ns name : json) (rules : list json)
    : outcome (option conflict_info) :=
  match rules with
  | [] => Return None
  | r :: rules' =>
      obind (Py.get r "host" JNull) (fun h =>
      if Py.eq_str h host
      then Return (Some {| conflict_namespace := ns; conflict_ingress := name |})
      else scan_rules host ns name rules')
  end.

(** The outer loop: one item after the other, leaving at the first match. *)
Fixpoint scan_items (host : string) (items : list json)
    : outcome (option conflict_info) :=
  match items with
  | [] => Return None
  | item :: items' =>
      obind (Py.get item "metadata" (JObj [])) (fun md =>
      obind (Py.get md "namespace" (JStr EmptyString)) (fun ns =>
      obind (Py.get item "metadata" (JObj [])) (fun md' =>
      obind (Py.get md' "name" (JStr EmptyString)) (fun name =>
      obind (Py.get item "spec" (JObj [])) (fun sp =>
      obind (Py.get sp "rules" (JArr [])) (fun rl =>
      obind (Py.iter (Py.or_else rl (JArr []))) (fun rules =>
      obind (scan_rules host ns name rules) (fun found =>
      match found with
      | Some c => Return (Some c)
      | None => scan_items host items'
      end))))))))
  end.

Definition scan_payload (host : string) (payload : json)
    : outcome (option conflict_info) :=
  obind (Py.get payload "items" (JArr [])) (fun its =>
  obind (Py.iter its) (fun items => scan_items host items)).

Definition kubectl_get_ingress : list string :=
  ["kubectl"; "get"; "ingress"; "-A"; "-o"; "json"].

Definition ingress_host_exists (host : string) : M W (option conflict_info) :=
  let* (rc, out, err) := run_command kubectl_get_ingress None 600 in
  if negb (rc =? 0) || Text.is_empty out then ret None
  else
    match json_loads out with
    | None => ret None
    | Some payload => lift (scan_payload host payload)
    end.

(** [stores[store_id] = record] *)
Definition put_store (store_id : string) (r : store_record) : M W unit :=
  fun st =>
    (Return tt,
     {| world := world st; stores := <[store_id := r]> (stores st);
        journal := journal st ++ [Stored store_id] |}).

(** [stores[store_id]["status"] = s] *)
Definition set_status (store_id : string) (s : status_t) : M W unit :=
  fun st =>
    match stores st !! store_id with
    | Some r =>
        (Return tt,
         {| world := world st;
            stores := <[store_id := with_status s r]> (stores st);
            journal := journal st ++ [Marked store_id s] |})
    | None => (Uncaught KeyError, st)
    end.

(** [stores[store_id]] *)
Definition get_store (store_id : string) : M W store_record :=
  fun st =>
    match stores st !! store_id with
    | Some r => (Return r, st)
    | None => (Uncaught KeyError, st)
    end.

(** [del stores[store_id]] *)
Definition del_store (store_id : string) : M W unit :=
  fun st =>
    match stores st !! store_id with
    | Some _ =>
        (Return tt,
         {| world := world st; stores := delete store_id (stores st);
            journal := journal st ++ [Removed store_id] |})
    | None => (Uncaught KeyError, st)
    end.

(** [str(uuid.uuid4())] *)
Definition draw_uuid : M W string :=
  fun st =>
    let (u, w) := uuid4_str (world st) in
    (Return u, log_event (DrewUuid u) w st).

(** [secrets.token_urlsafe(nbytes)] *)
Definition draw_token (nbytes : nat) : M W string :=
  fun st =>
    let (t, w) := token_urlsafe nbytes (world st) in
    (Return t,
     {| world := w; stores := stores st; journal := journal st |}).

(** [datetime.now(timezone.utc).isoformat()] *)
Definition now_iso : M W string :=
  fun st =>
    let (t, w) := utcnow_isoformat (world st) in
    (Return t,
     {| world := w; stores := stores st; journal := journal st |}).

(** The test guarding both idempotent creations:
    [rc != 0 and "already exists" not in (err or out).lower()]. *)
Definition creation_failed (rc : Z) (out err : string) : bool :=
  negb (rc =? 0)
  && negb (Text.contains "already exists" (Text.lower (Text.or_else err out))).

Definition kubectl_create_namespace (ns : string) : list string :=
  ["kubectl"; "create"; "namespace"; ns].

Definition kubectl_create_secret (secret_name root_password user_password
    ns : string) : list string :=
  ["kubectl"; "create"; "secret"; "generic"; secret_name;
   "--from-literal=root-password=" +:+ root_password;
   "--from-literal=user-password=" +:+ user_password;
   "--namespace=" +:+ ns].

(** [VALUES_LOCAL if env == "local" else VALUES_PROD] *)
Definition values_file (env : string) : string :=
  if String.eqb env "local" then VALUES_LOCAL P else VALUES_PROD P.

Definition helm_cmd (release ns env dom : string) : list string :=
  ["helm"; "install"; release; CHART_PATH P;
   "--namespace"; ns;
   "--values"; values_file env;
   "--set"; "ingress.host=" +:+ dom;
   "--set"; "storeName=" +:+ ns;
   "--wait";
   "--timeout"; "10m"].

Definition helm_uninstall (release ns : string) : list string :=
  ["helm"; "uninstall"; release; "-n"; ns].

Definition kubectl_delete_namespace (ns : string) : list string :=
  ["kubectl"; "delete"; "namespace"; ns].

Definition conflict_detail (dom : string) (c : conflict_info) : string :=
  "ingress host conflict: host '" +:+ dom +:+ "' already used in "
  +:+ format_value (conflict_namespace c) +:+ "/"
  +:+ format_value (conflict_ingress c).

(** Step 4 of [create_store], from the [helm install] call to the end. *)
Definition step_install (store_id release namespace env domain : string)
    : M W StoreResponse :=
  let* (rc, out, err) :=
    run_command (helm_cmd release namespace env domain)
      (Some (REPO_ROOT P)) 600 in
  if negb (rc =? 0) then
    let* _ := run_command (helm_uninstall release namespace) None 600 in
    let* _ := run_command (kubectl_delete_namespace namespace) None 600 in
    let* _ := set_status store_id Failed in
    raise_http 500
      ("helm install failed: " +:+ Text.take 1000 (Text.or_else err out))
  else
    let* _ := set_status store_id Ready in
    let* r := get_store store_id in
    ret (response_of r).

(** Step 2 of [create_store], from the secret creation on. *)
Definition step_secret (store_id release namespace env domain : string)
    : M W StoreResponse :=
  let secret_name := namespace +:+ "-db-secret" in
  let* root_password := draw_token 16 in
  let* user_password := draw_token 16 in
  let* (rc, out, err) :=
    run_command
      (kubectl_create_secret secret_name root_password user_password
         namespace) None 600 in
  if creation_failed rc out err then
    let* _ := set_status store_id Failed in
    raise_http 500 ("Secret creation failed: " +:+ Text.or_else err out)
  else step_install store_id release namespace env domain.

(** Step 1 of [create_store], from the namespace creation on. *)
Definition step_namespace (store_id release namespace env domain : string)
    : M W StoreResponse :=
  let* (rc, out, err) :=
    run_command (kubectl_create_namespace namespace) None 600 in
  if creation_failed rc out err then
    let* _ := set_status store_id Failed in
    raise_http 500 ("Namespace creation failed: " +:+ Text.or_else err out)
  else step_secret store_id release namespace env domain.

(** [POST /stores] *)
Definition create_store (req : StoreRequest) : M W StoreResponse :=
  let store_name := Text.lower (Text.strip (req_store_name req)) in
  let domain := Text.strip (req_domain req) in
  let env := Text.lower (Text.strip (req_environment req)) in
  if Text.is_empty store_name || Text.is_empty domain
  then raise_http 400 "store_name and domain are required"
  else
    let* u := draw_uuid in
    let store_id := Text.take 8 u in
    let namespace := store_name +:+ "-" +:+ store_id in
    let release := store_name +:+ "-" +:+ store_id in
    let* created_at := now_iso in
    let* _ := put_store store_id
      {| id := store_id; store_name := store_name; namespace := namespace;
         domain := domain; status := Provisioning; helm_release := release;
         environment := env; created_at := created_at |} in
    let* conflict := ingress_host_exists domain in
    match conflict with
    | Some c =>
        let* _ := set_status store_id Failed in
        raise_http 409 (conflict_detail domain c)
    | None => step_namespace store_id release namespace env domain
    end.

(** [DELETE /stores/{store_id}] *)
Definition delete_store (store_id : string) : M W delete_response :=
  fun st =>
    match stores st !! store_id with
    | None => raise_http 404 "Store not found" st
    | Some meta =>
        let namespace := namespace meta in
        let release := helm_release meta in
        (let* (rc, out, err) :=
           run_command (helm_uninstall release namespace) None 600 in
         let* (rc2, out2, err2) :=
           run_command (kubectl_delete_namespace namespace) None 600 in
         let* _ := del_store store_id in
         if negb (rc =? 0) then
           ret (UninstallError (Text.take 1000 (Text.or_else err out))
                  rc2 (Text.take 1000 out2) (Text.take 1000 err2))
         else ret (Deleted release namespace)) st
    end.

End Orchestrator.

(** ** A scripted platform, to run the handlers on concrete inputs *)

(** The answers the outside world will give, each list in the order the
    calls are made. *)
Record script : Type := {
  procs : list completed;
  uuids : list string;
  tokens : list string;
  clock : list string
}.

Definition next {A} (dflt : A) (xs : list A) : A * list A :=
  match xs with
  | [] => (dflt, [])
  | x :: xs' => (x, xs')
  end.

Definition script_run (w : script) : completed * script :=
  let (p, ps) := next (RunRaised "no scripted answer") (procs w) in
  (p, {| procs := ps; uuids := uuids w; tokens := tokens w; clock := clock w |}).

Definition script_uuid (w : script) : string * script :=
  let (u, us) := next EmptyString (uuids w) in
  (u, {| procs := procs w; uuids := us; tokens := tokens w; clock := clock w |}).

Definition script_token (w : script) : string * script :=
  let (t, ts) := next EmptyString (tokens w) in
  (t, {| procs := procs w; uuids := uuids w; tokens := ts; clock := clock w |}).

Definition script_now (w : script) : string * script :=
  let (t, ts) := next EmptyString (clock w) in
  (t, {| procs := procs w; uuids := uuids w; tokens := tokens w; clock := ts |}).

(** Rendering of the values the examples format: strings and [None]. *)
Definition script_format (v : json) : string :=
  match v with
  | JStr s => s
  | JNull => "None"
  | JBool true => "True"
  | JBool false => "False"
  | _ => "?"
  end.

(** The decoder is a finite table from texts to the values they denote. *)
Definition scripted (decoded : list (string * json)) : Platform script := {|
  subprocess_run := fun _ _ _ => script_run;
  uuid4_str := script_uuid;
  token_urlsafe := fun _ => script_token;
  utcnow_isoformat := script_now;
  json_loads := fun s => Py.assoc s decoded;
  format_value := script_format
|}.

Definition sample_paths : paths := {|
  REPO_ROOT := "/srv/platform";
  CHART_PATH := "/srv/platform/helm/woocommerce";
  VALUES_LOCAL := "/srv/platform/values-local.yaml";
  VALUES_PROD := "/srv/platform/values-prod.yaml"
|}.

(** The state of a process that has just started. *)
Definition fresh (w : script) : state script :=
  {| world := w; stores := ∅; journal := [] |}.

Definition acme : StoreRequest :=
  {| req_store_name := "acme"; req_domain := "acme.example.com";
     req_environment := "local" |}.

Definition globex : StoreRequest :=
  {| req_store_name := " Globex "; req_domain := "globex.example.com";
     req_environment := " PROD " |}.

(** The double quote, for the JSON texts of the examples. *)
Definition q : string := String "034" EmptyString.

Definition quoted (s : string) : string := q +:+ s +:+ q.

(** A listing without routes, one whose only route claims
    [acme.example.com], and a JSON text that is no listing at all. *)
Definition empty_listing : string := "{" +:+ quoted "items" +:+ ": []}".

Definition taken_listing : string :=
  "{" +:+ quoted "items" +:+ ": [{" +:+ quoted "metadata" +:+ ": {"
  +:+ quoted "name" +:+ ": " +:+ quoted "shop" +:+ ", "
  +:+ quoted "namespace" +:+ ": " +:+ quoted "shop-0a1b2c3d" +:+ "}, "
  +:+ quoted "spec" +:+ ": {" +:+ quoted "rules" +:+ ": [{"
  +:+ quoted "host" +:+ ": " +:+ quoted "acme.example.com" +:+ "}]}}]}".

Definition array_text : string := "[]".

Definition taken_payload : json :=
  JObj [("items",
         JArr [JObj [("metadata",
                      JObj [("name", JStr "shop");
                            ("namespace", JStr "shop-0a1b2c3d")]);
                     ("spec",
                      JObj [("rules",
                             JArr [JObj [("host",
                                          JStr "acme.example.com")]])])]])].

(** What the decoder makes of the three texts. *)
Definition decoded : list (string * json) :=
  [(empty_listing, JObj [("items", JArr [])]);
   (taken_listing, taken_payload);
   (array_text, JArr [])].

Definition sample_platform : Platform script := scripted decoded.

Definition fine : completed := CompletedProcess 0 EmptyString EmptyString.

Definition listed (text : string) : completed :=
  CompletedProcess 0 text EmptyString.

Definition uuid_a : string := "1b9d6bcd-bbfd-4b2d-9b5d-ab8dfbbd4bed".
Definition uuid_b : string := "1b9d6bcd-0c1e-4f7a-8d2b-5e6f7a8b9c0d".

Definition world_of (ps : list completed) : script :=
  {| procs := ps; uuids := [uuid_a; uuid_b];
     tokens := ["Zm9vYmFyYmF6cXV4MTIzNA"; "c2VjcmV0c2VjcmV0MTIzNA";
                "dG9rZW4tdGhyZWUtMTIzNA"; "dG9rZW4tZm91ci0xMjM0NQ"];
     clock := ["2026-01-01T00:00:00+00:00"; "2026-01-01T00:05:00+00:00"] |}.

(** Every command succeeds. *)
Definition calm : script := world_of [listed empty_listing; fine; fine; fine].

(** The requested host is already routed. *)
Definition taken : script := world_of [listed taken_listing].

(** The release installation fails, and so do both clean-up commands. *)
Definition stormy : script :=
  world_of [listed empty_listing; fine; fine;
            CompletedProcess 1 EmptyString "Error: timed out waiting";
            CompletedProcess 1 EmptyString "Error: release: not found";
            RunRaised "Command timed out after 600 seconds"].

(** The namespace creation fails with "already exists" on the standard
    output only. *)
Definition split_streams : completed :=
  CompletedProcess 1 "namespace acme-1b9d6bcd already exists"
    "Warning: deprecated flag".

Definition mixed : script :=
  world_of [listed empty_listing; split_streams; fine; fine].

(** The namespace exists already, reported on the standard error. *)
Definition existing : completed :=
  CompletedProcess 1 EmptyString
    "Error from server (AlreadyExists): namespaces already exists".

Definition rerun : script :=
  world_of [listed empty_listing; existing; fine; fine].

(** The namespace creation fails with 1001 characters of diagnostics. *)
Definition long_text : string :=
  string_of_list_ascii (replicate 1001 "x"%char).

Definition verbose : script :=
  world_of [listed empty_listing; CompletedProcess 1 EmptyString long_text].

(** The listing command answers a JSON array. *)
Definition odd : script := world_of [listed array_text].

(** Two calls whose UUIDs share their first eight characters. *)
Definition twice : script :=
  world_of [listed empty_listing; fine; fine; fine;
            listed empty_listing; fine; fine; fine].

(** The same two calls, with UUIDs that differ from the first character. *)
Definition uuid_c : string := "7c9e6679-7425-40de-944b-e07fc1f90ae7".

Definition apart : script :=
  {| procs := procs twice; uuids := [uuid_a; uuid_c];
     tokens := tokens twice; clock := clock twice |}.

(** A registry holding one ready store, and a teardown whose uninstall
    fails while the namespace deletion succeeds. *)
Definition acme_record : store_record :=
  {| id := "1b9d6bcd"; store_name := "acme";
     namespace := "acme-1b9d6bcd"; domain := "acme.example.com";
     status := Ready; helm_release := "acme-1b9d6bcd";
     environment := "local"; created_at := "2026-01-01T00:00:00+00:00" |}.

Definition serving (w : script) : state script :=
  {| world := w; stores := {[ "1b9d6bcd" := acme_record ]}; journal := [] |}.

Definition half_gone : script :=
  world_of [CompletedProcess 1 EmptyString "Error: uninstall: release not found";
            CompletedProcess 0 "namespace deleted" EmptyString].

(** ** Vocabulary of the specification *)

Section Vocabulary.

Context {W : Type} `{Platform W}.

(** What [run_command] hands back for a finished subprocess. *)
Definition exit_code (p : completed) : Z := fst (fst (folded p)).
Definition captured_out (p : completed) : string := snd (fst (folded p)).
Definition captured_err (p : completed) : string := snd (folded p).

(** The text a handler inspects and echoes: [err or out]. *)
Definition diagnostic (p : completed) : string :=
  Text.or_else (captured_err p) (captured_out p).

(** [needle] occurs in [text] up to letter case. *)
Definition occurs_ci (needle text : string) : Prop :=
  exists pre mid post,
    text = pre +:+ mid +:+ post /\ Text.lower mid = needle.

(** No [HTTPException] is raised. *)
Definition no_http {A} (o : outcome A) : Prop :=
  forall c d, o <> HTTPException c d.

(** The three normalised request fields. *)
Definition norm_name (req : StoreRequest) : string :=
  Text.lower (Text.strip (req_store_name req)).
Definition norm_domain (req : StoreRequest) : string :=
  Text.strip (req_domain req).
Definition norm_env (req : StoreRequest) : string :=
  Text.lower (Text.strip (req_environment req)).

(** A request the transport layer lets through: both required fields are
    non-empty once trimmed. *)
Definition valid (req : StoreRequest) : Prop :=
  norm_name req <> EmptyString /\ norm_domain req <> EmptyString.

(** The name shared by the namespace and the release of store [sid]. *)
Definition stack_name (req : StoreRequest) (sid : string) : string :=
  norm_name req +:+ "-" +:+ sid.

(** The record a call registers for the UUID text [u] at time [t]. *)
Definition pending (req : StoreRequest) (u t : string) : store_record :=
  {| id := Text.take 8 u; store_name := norm_name req;
     namespace := stack_name req (Text.take 8 u);
     domain := norm_domain req; status := Provisioning;
     helm_release := stack_name req (Text.take 8 u);
     environment := norm_env req; created_at := t |}.

(** The state in which the conflict check of that call starts. *)
Definition registered (req : StoreRequest) (u t : string) (w : W)
    (st : state W) : state W :=
  {| world := w;
     stores := <[Text.take 8 u := pending req u t]> (stores st);
     journal := journal st ++ [DrewUuid u; Stored (Text.take 8 u)] |}.

(** The commands launched, in order. *)
Fixpoint commands (j : list event) : list (list string) :=
  match j with
  | [] => []
  | Ran cmd _ _ :: j' => cmd :: commands j'
  | _ :: j' => commands j'
  end.

(** The identifiers under which records were inserted, in order. *)
Fixpoint stored_ids (j : list event) : list string :=
  match j with
  | [] => []
  | Stored sid :: j' => sid :: stored_ids j'
  | _ :: j' => stored_ids j'
  end.

(** The UUID texts drawn, in order. *)
Fixpoint drawn (j : list event) : list string :=
  match j with
  | [] => []
  | DrewUuid u :: j' => u :: drawn j'
  | _ :: j' => drawn j'
  end.

End Vocabulary.

(** ** What the specification says of the conflict checker *)

Module Listing.

Definition is_obj (v : json) : bool :=
  match v with
  | JObj _ => true
  | _ => false
  end.

(** The value under [key] of a dict, or [dflt] when the key is missing. *)
Definition field (key : string) (dflt v : json) : json :=
  match v with
  | JObj kv => default dflt (Py.assoc key kv)
  | _ => dflt
  end.

Definition elements (v : json) : list json :=
  match v with
  | JArr xs => xs
  | _ => []
  end.

(** The rules of one route; a missing or null [rules] means none. *)
Definition rules_of (item : json) : list json :=
  elements (field "rules" (JArr []) (field "spec" (JObj []) item)).

(** One candidate per rule of a route: where the route lives, and the
    host the rule claims. *)
Definition candidates_of (item : json) : list (conflict_info * json) :=
  let md := field "metadata" (JObj []) item in
  let c := {| conflict_namespace := field "namespace" (JStr EmptyString) md;
              conflict_ingress := field "name" (JStr EmptyString) md |} in
  map (fun r => (c, field "host" JNull r)) (rules_of item).

(** The specification's reading of the scan: every rule of every route,
    in listing order; the first whose host is exactly the queried one. *)
Definition first_match (host : string) (payload : json)
    : option conflict_info :=
  fst <$> List.find (fun ch => Py.eq_str (snd ch) host)
            (flat_map candidates_of
               (elements (field "items" (JArr []) payload))).

(** The shape of a route listing: a dict whose [items], if present, is a
    list of dicts; in each, [metadata] and [spec], if present, are dicts,
    and [rules], if present, is null or a list of dicts. *)
Definition rules_well_formed (rl : json) : bool :=
  match rl with
  | JNull => true
  | JArr rs => forallb is_obj rs
  | _ => false
  end.

Definition item_well_formed (item : json) : bool :=
  is_obj item
  && is_obj (field "metadata" (JObj []) item)
  && is_obj (field "spec" (JObj []) item)
  && rules_well_formed (field "rules" (JArr []) (field "spec" (JObj []) item)).

Definition well_formed (payload : json) : bool :=
  is_obj payload
  && match field "items" (JArr []) payload with
     | JArr items => forallb item_well_formed items
     | _ => false
     end.

End Listing.

(** ** Sequences of provision calls *)

Section Runs.

Context {W : Type} `{Platform W}.
Variable P : paths.

(** The calls are handled one after the other: a handler has no point at
    which it yields, so no two of them interleave. *)
Fixpoint provision_all (reqs : list StoreRequest) (st : state W)
    : list (outcome StoreResponse) * state W :=
  match reqs with
  | [] => ([], st)
  | req :: reqs' =>
      let (o, st1) := create_store P req st in
      let (os, st2) := provision_all reqs' st1 in
      (o :: os, st2)
  end.

(** The commands the steps of a provision call may launch. *)
Definition provision_command (release ns env dom : string)
    (cmd : list string) : Prop :=
  cmd = kubectl_get_ingress
  \/ cmd = kubectl_create_namespace ns
  \/ (exists t1 t2,
        cmd = kubectl_create_secret (ns +:+ "-db-secret") t1 t2 ns)
  \/ cmd = helm_cmd P release ns env dom
  \/ cmd = helm_uninstall release ns
  \/ cmd = kubectl_delete_namespace ns.

(** What any stretch of a provision call for the record [r] under [sid]
    does to the state: it rewrites at most the status of that record,
    draws no identifier, inserts no record, launches only the commands
    of the call, and a response, if any, renders the record. *)
Definition stretch (release ns env dom sid : string) (r : store_record)
    (st : state W) (o : outcome StoreResponse) (st' : state W) : Prop :=
  exists s evs,
    stores st' = <[sid := with_status s r]> (stores st)
    /\ journal st' = journal st ++ evs
    /\ stored_ids evs = []
    /\ drawn evs = []
    /\ Forall (provision_command release ns env dom) (commands evs)
    /\ forall resp, o = Return resp -> resp = response_of (with_status s r).

End Runs.

(** ** Sequences of requests and the start-up code *)

Section Endpoints.

Context {W : Type} `{Platform W}.
Variable P : paths.

(** One request to the service. *)
Inductive request : Type :=
  | Provision (req : StoreRequest)
  | Deprovision (store_id : string).

(** The state a request leaves behind, whatever it answered. *)
Definition handle (rq : request) (st : state W) : state W :=
  match rq with
  | Provision req => snd (create_store P req st)
  | Deprovision sid => snd (delete_store sid st)
  end.

(** Requests are served one after the other. *)
Fixpoint serve (rqs : list request) (st : state W) : state W :=
  match rqs with
  | [] => st
  | rq :: rqs' => serve rqs' (handle rq st)
  end.

End Endpoints.

(** What the module asks of the file system at start-up. *)
Record filesystem : Type := {
  abspath : string -> string;
  dirname : string -> string;
  isdir : string -> bool;
  isfile : string -> bool
}.

Module Path.

Definition starts_with_sep (s : string) : bool :=
  match s with
  | String "/" _ => true
  | _ => false
  end.

Fixpoint ends_with_sep (s : string) : bool :=
  match s with
  | EmptyString => false
  | String c EmptyString => Ascii.eqb c "/"
  | String _ s' => ends_with_sep s'
  end.

(** [os.path.join(a, b)] on a POSIX system: an absolute [b] replaces [a];
    otherwise [b] is appended, after a separator unless [a] is empty or
    ends with one. *)
Definition join (a b : string) : string :=
  if starts_with_sep b then b
  else if Text.is_empty a || ends_with_sep a then a +:+ b
  else a +:+ "/" +:+ b.

End Path.

(** [_init_paths] returns the paths or raises [RuntimeError(message)]. *)
Inductive startup : Type :=
  | Started (p : paths)
  | RuntimeError (message : string).

(** [_init_paths()], for the file system [fs] and the value [file] of
    [__file__]. *)
Definition _init_paths (fs : filesystem) (file : string) : startup :=
  let script_dir := dirname fs (abspath fs file) in
  let repo_root := abspath fs (Path.join script_dir "..") in
  let chart_path := Path.join (Path.join repo_root "helm") "woocommerce" in
  let values_local := Path.join repo_root "values-local.yaml" in
  let values_prod := Path.join repo_root "values-prod.yaml" in
  if negb (isdir fs repo_root) then
    RuntimeError ("Repository root not found: " +:+ repo_root)
  else if negb (isdir fs chart_path) then
    RuntimeError ("Helm chart directory not found: " +:+ chart_path)
  else if negb (isfile fs values_local) then
    RuntimeError ("values-local.yaml not found: " +:+ values_local)
  else if negb (isfile fs values_prod) then
    RuntimeError ("values-prod.yaml not found: " +:+ values_prod)
  else
    Started {| REPO_ROOT := repo_root; CHART_PATH := chart_path;
               VALUES_LOCAL := values_local; VALUES_PROD := values_prod |}.

(** ** Further vocabulary *)

(** A text of white space only, the empty text included. *)
Fixpoint blank (s : string) : bool :=
  match s with
  | EmptyString => true
  | String c s' => Text.is_space c && blank s'
  end.

(** The status writes, in order. *)
Fixpoint marks (j : list event) : list (string * status_t) :=
  match j with
  | [] => []
  | Marked sid s :: j' => (sid, s) :: marks j'
  | _ :: j' => marks j'
  end.

(** What every record of the registry satisfies: it sits under its own
    id, its namespace and release carry the one name made of the store
    name and the id, and neither the store name nor the domain is empty. *)
Definition record_ok (key : string) (r : store_record) : Prop :=
  id r = key
  /\ namespace r = store_name r +:+ "-" +:+ key
  /\ helm_release r = namespace r
  /\ store_name r <> EmptyString
  /\ domain r <> EmptyString.

Definition registry_ok (m : gmap string store_record) : Prop :=
  map_Forall record_ok m.

Section Endings.

Context {W : Type} `{Platform W}.
Variable P : paths.

(** How the installation step can end for the record [r]: with a failed
    installation rolled back, or with the store ready. *)
Definition install_ending (release ns env dom sid : string) (r : store_record)
    (o : outcome StoreResponse) (s : status_t) (evs : list event) : Prop :=
  (exists d,
     o = HTTPException 500 d /\ s = Failed
     /\ evs = [Ran (helm_cmd P release ns env dom) (Some (REPO_ROOT P)) 600;
               Ran (helm_uninstall release ns) None 600;
               Ran (kubectl_delete_namespace ns) None 600;
               Marked sid Failed])
  \/ (o = Return (response_of (with_status Ready r)) /\ s = Ready
      /\ evs = [Ran (helm_cmd P release ns env dom) (Some (REPO_ROOT P)) 600;
                Marked sid Ready]).

(** How the secret step can end. *)
Definition secret_ending (release ns env dom sid : string) (r : store_record)
    (o : outcome StoreResponse) (s : status_t) (evs : list event) : Prop :=
  exists t1 t2,
    let secret :=
      Ran (kubectl_create_secret (ns +:+ "-db-secret") t1 t2 ns) None 600 in
    (exists d,
       o = HTTPException 500 d /\ s = Failed
       /\ evs = [secret; Marked sid Failed])
    \/ (exists evs',
          evs = secret :: evs'
          /\ install_ending release ns env dom sid r o s evs').

(** How the namespace step can end. *)
Definition namespace_ending (release ns env dom sid : string)
    (r : store_record) (o : outcome StoreResponse) (s : status_t)
    (evs : list event) : Prop :=
  let creation := Ran (kubectl_create_namespace ns) None 600 in
  (exists d,
     o = HTTPException 500 d /\ s = Failed
     /\ evs = [creation; Marked sid Failed])
  \/ (exists evs',
        evs = creation :: evs'
        /\ secret_ending release ns env dom sid r o s evs').

(** How a call for a valid request can end once the route listing has
    been launched: an exception of the conflict checker escapes, a
    conflict is reported, or the three steps take over. *)
Definition call_ending (release ns env dom sid : string) (r : store_record)
    (o : outcome StoreResponse) (s : status_t) (evs : list event) : Prop :=
  (exists e, o = Uncaught e /\ s = Provisioning /\ evs = [])
  \/ (exists d,
        o = HTTPException 409 d /\ s = Failed /\ evs = [Marked sid Failed])
  \/ namespace_ending release ns env dom sid r o s evs.

End Endings.

(** ** Further scripted examples *)

Definition sample_fs : filesystem := {|
  abspath := fun s =>
    if String.eqb s "/srv/platform/orchestrator/.." then "/srv/platform"
    else s;
  dirname := fun s =>
    if String.eqb s "/srv/platform/orchestrator/main.py"
    then "/srv/platform/orchestrator" else s;
  isdir := fun s =>
    String.eqb s "/srv/platform"
    || String.eqb s "/srv/platform/helm/woocommerce";
  isfile := fun s =>
    String.eqb s "/srv/platform/values-local.yaml"
    || String.eqb s "/srv/platform/values-prod.yaml"
|}.

Definition blank_name : StoreRequest :=
  {| req_store_name := "   "; req_domain := "acme.example.com";
     req_environment := "local" |}.

(** The secret creation fails. *)
Definition denied : script :=
  world_of [listed empty_listing; fine;
            CompletedProcess 1 EmptyString "Error: forbidden"].

(** The namespace creation fails. *)
Definition refused : script :=
  world_of [listed empty_listing;
            CompletedProcess 1 EmptyString "Error: quota exceeded"].

(** A route that claims [acme.example.com]. *)
Definition shop_route : json :=
  JObj [("metadata",
         JObj [("name", JStr "shop"); ("namespace", JStr "shop-0a1b2c3d")]);
        ("spec",
         JObj [("rules", JArr [JObj [("host", JStr "acme.example.com")]])])].

(** A listing whose first route claims the host and whose second item is
    not a route at all. *)
Definition ragged_payload : json :=
  JObj [("items", JArr [shop_route; JInt 7])].

Definition ragged_text : string :=
  "{" +:+ quoted "items" +:+ ": [{" +:+ quoted "metadata" +:+ ": {"
  +:+ quoted "name" +:+ ": " +:+ quoted "shop" +:+ ", "
  +:+ quoted "namespace" +:+ ": " +:+ quoted "shop-0a1b2c3d" +:+ "}, "
  +:+ quoted "spec" +:+ ": {" +:+ quoted "rules" +:+ ": [{"
  +:+ quoted "host" +:+ ": " +:+ quoted "acme.example.com" +:+ "}]}}, 7]}".

Definition ragged_platform : Platform script :=
  scripted [(ragged_text, ragged_payload)].

Definition ragged : script := world_of [listed ragged_text].

(** A provision in which every command succeeds, followed by a teardown
    in which both do. *)
Definition full_cycle : script :=
  world_of [listed empty_listing; fine; fine; fine; fine; fine].

(** A second store is provisioned beside the one already served, which
    is then torn down. *)
Definition busy : script :=
  {| procs := [listed empty_listing; fine; fine; fine; fine; fine];
     uuids := [uuid_c]; tokens := tokens calm; clock := clock calm |}.

Definition busy_requests : list request :=
  [Provision globex; Provision blank_name; Deprovision "1b9d6bcd"].

(** A world whose next UUID starts with other characters than the id of
    the store already served. *)
Definition later : script :=
  {| procs := procs calm; uuids := [uuid_c];
     tokens := tokens calm; clock := clock calm |}.

(** * Properties *)

(** ** Basic facts about the text primitives *)

Module TextFacts.
Import Text.

Lemma take_length (n : nat) (s : string) : (String.length (take n s) <= n)%nat.
Proof.
  revert s. induction n as [|n IH]; intros [|c s]; simpl; try lia.
  specialize (IH s). lia.
Qed.

Lemma take_short (n : nat) (s : string) :
  (String.length s <= n)%nat -> take n s = s.
Proof.
  revert s. induction n as [|n IH]; intros [|c s]; simpl; intros Hl;
    try reflexivity; try lia.
  f_equal. apply IH. lia.
Qed.

Lemma lower_app (a b : string) : lower (a +:+ b) = lower a +:+ lower b.
Proof. induction a as [|c a IH]; simpl; [reflexivity | now rewrite IH]. Qed.

Lemma lower_length (s : string) : String.length (lower s) = String.length s.
Proof. induction s as [|c s IH]; simpl; [reflexivity | now rewrite IH]. Qed.

Lemma is_space_lower (c : ascii) : is_space (lower_char c) = is_space c.
Proof. destruct c as [[] [] [] [] [] [] [] []]; reflexivity. Qed.

Lemma lower_char_idem (c : ascii) : lower_char (lower_char c) = lower_char c.
Proof. destruct c as [[] [] [] [] [] [] [] []]; reflexivity. Qed.

Lemma lstrip_lower (s : string) : lstrip (lower s) = lower (lstrip s).
Proof.
  induction s as [|c s IH]; simpl; [reflexivity|].
  rewrite is_space_lower. destruct (is_space c); [exact IH | reflexivity].
Qed.

Lemma rstrip_lower (s : string) : rstrip (lower s) = lower (rstrip s).
Proof.
  induction s as [|c s IH]; simpl; [reflexivity|].
  rewrite IH, is_space_lower.
  destruct (rstrip s); simpl; [destruct (is_space c)|]; reflexivity.
Qed.

(** Trimming and lower-casing commute, so "lowercased, trimmed" names one
    string whichever is done first. *)
Lemma strip_lower (s : string) : strip (lower s) = lower (strip s).
Proof. unfold strip. now rewrite lstrip_lower, rstrip_lower. Qed.

Lemma prefix_app (a b : string) :
  String.prefix a b = true <-> exists post, b = a +:+ post.
Proof.
  revert b. induction a as [|c a IH]; intros b; simpl.
  - split; [exists b; reflexivity | intros _; destruct b; reflexivity].
  - destruct b as [|d b]; [split; [discriminate | intros [p Hp]; discriminate]|].
    simpl. destruct (ascii_dec c d) as [->|Hne].
    + split.
      * intros Hp. apply IH in Hp as [p Hp]. exists p. now rewrite Hp.
      * intros [p Hp]. apply IH. exists p. now inversion Hp.
    + split; [discriminate | intros [p Hp]; inversion Hp; congruence].
Qed.

Lemma contains_nil (needle : string) :
  contains needle EmptyString = String.prefix needle EmptyString.
Proof. unfold contains. apply orb_false_r. Qed.

Lemma contains_cons (needle : string) (c : ascii) (hay : string) :
  contains needle (String c hay)
  = String.prefix needle (String c hay) || contains needle hay.
Proof. reflexivity. Qed.

(** [contains] is Python's substring test. *)
Lemma contains_app (needle hay : string) :
  contains needle hay = true <->
  exists pre post, hay = pre +:+ needle +:+ post.
Proof.
  induction hay as [|c hay IH].
  - rewrite contains_nil. split.
    + intros Hp. apply prefix_app in Hp as [p Hp]. exists EmptyString, p. exact Hp.
    + intros [[|d pre] [post Hp]]; [|discriminate].
      apply prefix_app. exists post. exact Hp.
  - rewrite contains_cons, orb_true_iff. split.
    + intros [Hp|Hp].
      * apply prefix_app in Hp as [p Hp]. exists EmptyString, p. exact Hp.
      * apply IH in Hp as [pre [post Hp]].
        exists (String c pre), post. simpl. now rewrite Hp.
    + intros [[|d pre] [post Hp]].
      * left. apply prefix_app. exists post. exact Hp.
      * right. apply IH. simpl in Hp. inversion Hp. exists pre, post. reflexivity.
Qed.

Lemma lower_split (s x y : string) :
  lower s = x +:+ y ->
  exists a b, s = a +:+ b /\ lower a = x /\ lower b = y.
Proof.
  revert s. induction x as [|c x IH]; intros s Hs; simpl in Hs.
  - exists EmptyString, s. auto.
  - destruct s as [|d s]; [discriminate|]. simpl in Hs. inversion Hs as [[Hc Hx]].
    destruct (IH s Hx) as (a & b & -> & Ha & Hb).
    exists (String d a), b. simpl. rewrite Ha. auto.
Qed.

End TextFacts.

(** ** The scan of a decoded listing raises no HTTP error *)

Lemma obind_no_http {A B} (o : outcome A) (k : A -> outcome B) :
  no_http o -> (forall a, no_http (k a)) -> no_http (obind o k).
Proof.
  intros Ho Hk c d. destruct o as [a|c' d'|e]; simpl.
  - apply Hk.
  - intros _. now apply (Ho c' d').
  - discriminate.
Qed.

Lemma get_no_http v key dflt : no_http (Py.get v key dflt).
Proof. intros c d. destruct v; discriminate. Qed.

Lemma iter_no_http v : no_http (Py.iter v).
Proof. intros c d. destruct v; discriminate. Qed.

Lemma scan_rules_no_http host ns name rules :
  no_http (scan_rules host ns name rules).
Proof.
  induction rules as [|r rules IH]; simpl; [intros c d; discriminate|].
  apply obind_no_http; [apply get_no_http|].
  intros h. destruct (Py.eq_str h host); [intros c d; discriminate | exact IH].
Qed.

Lemma scan_items_no_http host items : no_http (scan_items host items).
Proof.
  induction items as [|item items IH]; simpl; [intros c d; discriminate|].
  do 6 (apply obind_no_http; [apply get_no_http | intros ?]).
  apply obind_no_http; [apply iter_no_http | intros rules].
  apply obind_no_http; [apply scan_rules_no_http | intros found].
  destruct found as [hit|]; [discriminate | exact IH].
Qed.

Lemma scan_payload_no_http host payload : no_http (scan_payload host payload).
Proof.
  unfold scan_payload.
  apply obind_no_http; [apply get_no_http | intros its].
  apply obind_no_http; [apply iter_no_http | intros items].
  apply scan_items_no_http.
Qed.

(** ** The scan of a well-formed listing finds the first match *)

Module ListingFacts.
Import Listing.

Lemma get_obj v key dflt :
  is_obj v = true -> Py.get v key dflt = Return (field key dflt v).
Proof. destruct v; try discriminate. reflexivity. Qed.

Lemma iter_rules rl :
  rules_well_formed rl = true ->
  Py.iter (Py.or_else rl (JArr [])) = Return (elements rl).
Proof.
  destruct rl as [| | | | |rs|]; try discriminate; [reflexivity|].
  destruct rs; reflexivity.
Qed.

Lemma scan_rules_find host ns name rules :
  forallb is_obj rules = true ->
  scan_rules host ns name rules
  = Return
      (fst <$> List.find (fun ch => Py.eq_str (snd ch) host)
                 (map (fun r =>
                         ({| conflict_namespace := ns;
                             conflict_ingress := name |},
                          field "host" JNull r)) rules)).
Proof.
  induction rules as [|r rules IH]; [reflexivity|].
  cbn [forallb]. rewrite andb_true_iff. intros [Hr Hrs].
  cbn [scan_rules map List.find snd]. rewrite (get_obj _ _ _ Hr).
  cbn [obind]. destruct (Py.eq_str (field "host" JNull r) host);
    [reflexivity | now apply IH].
Qed.

Lemma find_app {A} (f : A -> bool) (l1 l2 : list A) :
  List.find f (l1 ++ l2)
  = match List.find f l1 with
    | Some x => Some x
    | None => List.find f l2
    end.
Proof.
  induction l1 as [|x l1 IH]; [reflexivity|].
  cbn [app List.find]. now destruct (f x).
Qed.

Lemma scan_items_find host items :
  forallb item_well_formed items = true ->
  scan_items host items
  = Return
      (fst <$> List.find (fun ch => Py.eq_str (snd ch) host)
                 (flat_map candidates_of items)).
Proof.
  induction items as [|item items IH]; [reflexivity|].
  cbn [forallb]. rewrite andb_true_iff. intros [Hitem Hitems].
  unfold item_well_formed in Hitem.
  rewrite !andb_true_iff in Hitem. destruct Hitem as [[[Hi Hmd] Hsp] Hrl].
  cbn [scan_items flat_map]. rewrite find_app.
  rewrite !(get_obj _ _ _ Hi). cbn [obind].
  rewrite !(get_obj _ _ _ Hmd). cbn [obind].
  rewrite (get_obj _ _ _ Hsp). cbn [obind].
  rewrite (iter_rules _ Hrl). cbn [obind].
  assert (Hobjs : forallb is_obj
                    (elements (field "rules" (JArr [])
                                 (field "spec" (JObj []) item))) = true).
  { destruct (field "rules" (JArr []) (field "spec" (JObj []) item));
      try reflexivity; try discriminate. exact Hrl. }
  rewrite (scan_rules_find _ _ _ _ Hobjs). cbn [obind].
  unfold candidates_of, rules_of. rewrite (IH Hitems).
  now destruct (List.find _ (map _ _)) as [[c h]|].
Qed.

(** On a well-formed listing the scan of the code is the scan of the
    specification: the first rule, in listing order, whose host is the
    queried string. *)
Lemma scan_payload_first_match host payload :
  well_formed payload = true ->
  scan_payload host payload = Return (first_match host payload).
Proof.
  unfold well_formed. rewrite andb_true_iff. intros [Hp Hitems].
  unfold scan_payload, first_match.
  rewrite (get_obj _ _ _ Hp). cbn [obind].
  destruct (field "items" (JArr []) payload) as [| | | | |items|];
    try discriminate.
  cbn [Py.iter obind elements]. now apply scan_items_find.
Qed.

(** The host comparison is exact: equal strings, letter case included. *)
Lemma eq_str_exact v host :
  Py.eq_str v host = true <-> v = JStr host.
Proof.
  destruct v; cbn; try (split; [discriminate | intros [=]]).
  rewrite String.eqb_eq. split; [now intros -> | now intros [= ->]].
Qed.

End ListingFacts.

(** ** Trimming *)

Module TrimFacts.
Import Text.

Lemma lstrip_head (s : string) :
  lstrip s = EmptyString
  \/ exists c t, lstrip s = String c t /\ is_space c = false.
Proof.
  induction s as [|c s IH]; [now left|]. simpl.
  destruct (is_space c) eqn:Hc; [exact IH|]. right. now exists c, s.
Qed.

Lemma lstrip_nonspace (c : ascii) (t : string) :
  is_space c = false -> lstrip (String c t) = String c t.
Proof. intros Hc. simpl. now rewrite Hc. Qed.

Lemma rstrip_nonspace (c : ascii) (t : string) :
  is_space c = false -> exists t', rstrip (String c t) = String c t'.
Proof.
  intros Hc. simpl. destruct (rstrip t) as [|d r].
  - rewrite Hc. now exists EmptyString.
  - now exists (String d r).
Qed.

Lemma rstrip_cons (c : ascii) (t : string) :
  rstrip (String c t)
  = match rstrip t with
    | EmptyString => if is_space c then EmptyString else String c EmptyString
    | r => String c r
    end.
Proof. reflexivity. Qed.

Lemma rstrip_idem (s : string) : rstrip (rstrip s) = rstrip s.
Proof.
  induction s as [|c s IH]; [reflexivity|]. rewrite rstrip_cons.
  destruct (rstrip s) as [|d r] eqn:Hr.
  - destruct (is_space c) eqn:Hc; [reflexivity|].
    rewrite rstrip_cons. cbn [rstrip]. now rewrite Hc.
  - rewrite rstrip_cons, IH. reflexivity.
Qed.

Lemma strip_idem (s : string) : strip (strip s) = strip s.
Proof.
  unfold strip. destruct (lstrip_head s) as [->|(c & t & -> & Hc)];
    [reflexivity|].
  destruct (rstrip_nonspace c t Hc) as [t' Ht']. rewrite Ht'.
  rewrite (lstrip_nonspace _ _ Hc), <- Ht'. apply rstrip_idem.
Qed.

Lemma lstrip_blank (s : string) : lstrip s = EmptyString <-> blank s = true.
Proof.
  induction s as [|c s IH]; [easy|]. simpl.
  destruct (is_space c); [exact IH | easy].
Qed.

Lemma rstrip_blank (s : string) : rstrip s = EmptyString <-> blank s = true.
Proof.
  induction s as [|c s IH]; [easy|]. simpl.
  destruct (rstrip s) as [|d r].
  - destruct (is_space c); simpl; [tauto|]. easy.
  - rewrite andb_true_iff. split; [easy|]. intros [_ Hb].
    apply IH in Hb. discriminate.
Qed.

Lemma blank_lstrip (s : string) : blank (lstrip s) = blank s.
Proof.
  induction s as [|c s IH]; [reflexivity|]. simpl.
  destruct (is_space c) eqn:Hc; [exact IH|]. simpl. now rewrite Hc.
Qed.

(** A text trims to nothing exactly when it is white space only. *)
Lemma strip_blank (s : string) : strip s = EmptyString <-> blank s = true.
Proof. unfold strip. now rewrite rstrip_blank, blank_lstrip. Qed.

Lemma lower_empty (s : string) : lower s = EmptyString <-> s = EmptyString.
Proof. destruct s; simpl; easy. Qed.

Lemma lower_idem (s : string) : lower (lower s) = lower s.
Proof.
  induction s as [|c s IH]; [reflexivity|]. simpl.
  now rewrite TextFacts.lower_char_idem, IH.
Qed.

Lemma append_cancel (a x y : string) : a +:+ x = a +:+ y -> x = y.
Proof.
  induction a as [|c a IH]; simpl; [easy|]. intros [= Heq]. now apply IH.
Qed.

End TrimFacts.

(** ** What a reported match says about the listing *)

Module ScanFacts.
Import Listing.

Lemma get_return v key dflt x :
  Py.get v key dflt = Return x -> is_obj v = true /\ x = field key dflt v.
Proof. destruct v; try discriminate. now intros [= <-]. Qed.

Lemma host_is_obj r host : field "host" JNull r = JStr host -> is_obj r = true.
Proof. destruct r; try discriminate. reflexivity. Qed.

(** Only a list yields dicts when iterated: a dict yields its keys and a
    string its characters. *)
Lemma iter_array v xs x :
  Py.iter v = Return xs -> In x xs -> is_obj x = true -> v = JArr xs.
Proof.
  destruct v; try discriminate; intros [= <-]; [|reflexivity|].
  - intros Hin. apply in_map_iff in Hin as (c & <- & _). discriminate.
  - intros Hin. apply in_map_iff in Hin as (kv' & <- & _). discriminate.
Qed.

Lemma scan_rules_sound host ns name rules c :
  scan_rules host ns name rules = Return (Some c) ->
  c = {| conflict_namespace := ns; conflict_ingress := name |}
  /\ exists r, In r rules /\ field "host" JNull r = JStr host.
Proof.
  induction rules as [|r rules IH]; [discriminate|]. cbn [scan_rules].
  destruct (Py.get r "host" JNull) as [h| |] eqn:Hg; try discriminate.
  cbn [obind]. apply get_return in Hg as [_ ->].
  destruct (Py.eq_str (field "host" JNull r) host) eqn:Heq.
  - intros [= <-]. split; [reflexivity|]. exists r. split; [now left|].
    now apply ListingFacts.eq_str_exact.
  - intros Hrest. destruct (IH Hrest) as (Hc & r' & Hin & Hh).
    split; [exact Hc|]. exists r'. split; [now right | exact Hh].
Qed.

Lemma scan_items_sound host items c :
  scan_items host items = Return (Some c) ->
  exists item r,
    In item items /\ is_obj item = true
    /\ In r (rules_of item)
    /\ field "host" JNull r = JStr host
    /\ c = {| conflict_namespace :=
                field "namespace" (JStr EmptyString)
                  (field "metadata" (JObj []) item);
              conflict_ingress :=
                field "name" (JStr EmptyString)
                  (field "metadata" (JObj []) item) |}.
Proof.
  induction items as [|item items IH]; [discriminate|]. cbn [scan_items].
  destruct (Py.get item "metadata" (JObj [])) as [md| |] eqn:Hmd;
    try discriminate.
  apply get_return in Hmd as [Hitem ->]. cbn [obind].
  destruct (Py.get _ "namespace" _) as [ns| |] eqn:Hns; try discriminate.
  apply get_return in Hns as [_ ->]. cbn [obind].
  destruct (Py.get _ "name" _) as [name| |] eqn:Hname; try discriminate.
  apply get_return in Hname as [_ ->]. cbn [obind].
  destruct (Py.get item "spec" (JObj [])) as [sp| |] eqn:Hsp;
    try discriminate.
  apply get_return in Hsp as [_ ->]. cbn [obind].
  destruct (Py.get _ "rules" _) as [rl| |] eqn:Hrl; try discriminate.
  apply get_return in Hrl as [_ ->]. cbn [obind].
  destruct (Py.iter _) as [rules| |] eqn:Hiter; try discriminate.
  cbn [obind].
  destruct (scan_rules host _ _ rules) as [[c'|]| |] eqn:Hscan;
    try discriminate; cbn [obind].
  - intros [= <-]. apply scan_rules_sound in Hscan as (-> & r & Hin & Hh).
    exists item, r. split; [now left|]. split; [exact Hitem|].
    split; [|split; [exact Hh | reflexivity]].
    pose proof (iter_array _ _ _ Hiter Hin (host_is_obj _ _ Hh)) as Harr.
    unfold rules_of. unfold Py.or_else in Harr.
    destruct (Py.truthy _); [now rewrite Harr|].
    injection Harr as <-. destruct Hin.
  - intros Hrest.
    destruct (IH Hrest) as (item' & r & Hin & Hrest').
    exists item', r. split; [now right | exact Hrest'].
Qed.

Lemma scan_payload_sound host payload c :
  scan_payload host payload = Return (Some c) ->
  exists item r,
    In item (elements (field "items" (JArr []) payload))
    /\ In r (rules_of item)
    /\ field "host" JNull r = JStr host
    /\ c = {| conflict_namespace :=
                field "namespace" (JStr EmptyString)
                  (field "metadata" (JObj []) item);
              conflict_ingress :=
                field "name" (JStr EmptyString)
                  (field "metadata" (JObj []) item) |}.
Proof.
  unfold scan_payload.
  destruct (Py.get payload "items" (JArr [])) as [its| |] eqn:Hits;
    try discriminate.
  apply get_return in Hits as [_ ->]. cbn [obind].
  destruct (Py.iter _) as [items| |] eqn:Hiter; try discriminate.
  cbn [obind]. intros Hscan.
  apply scan_items_sound in Hscan as (item & r & Hin & Hobj & Hrest).
  exists item, r. split; [|exact Hrest].
  now rewrite (iter_array _ _ _ Hiter Hin Hobj).
Qed.

(** On well-formed items that hold a match, the scan stops at it: what
    follows in the listing is not looked at. *)
Lemma scan_items_stops host pre rest c h :
  forallb item_well_formed pre = true ->
  List.find (fun ch => Py.eq_str (snd ch) host) (flat_map candidates_of pre)
  = Some (c, h) ->
  scan_items host (pre ++ rest) = Return (Some c).
Proof.
  induction pre as [|item pre IH]; [discriminate|].
  cbn [forallb]. rewrite andb_true_iff. intros [Hitem Hpre].
  cbn [flat_map]. rewrite ListingFacts.find_app.
  pose proof (ListingFacts.scan_items_find host [item]) as Hone.
  cbn [forallb] in Hone. rewrite Hitem in Hone. specialize (Hone eq_refl).
  cbn [flat_map] in Hone. rewrite app_nil_r in Hone.
  revert Hone. cbn [scan_items app].
  unfold item_well_formed in Hitem.
  rewrite !andb_true_iff in Hitem. destruct Hitem as [[[Hi Hmd] Hsp] Hrl].
  rewrite !(ListingFacts.get_obj _ _ _ Hi). cbn [obind].
  rewrite !(ListingFacts.get_obj _ _ _ Hmd). cbn [obind].
  rewrite (ListingFacts.get_obj _ _ _ Hsp). cbn [obind].
  rewrite (ListingFacts.iter_rules _ Hrl). cbn [obind].
  destruct (scan_rules host _ _ _) as [[c'|]| |]; cbn [obind];
    destruct (List.find _ (candidates_of item)) as [[c1 h1]|];
    try discriminate.
  - now intros [= <-] [= <- _].
  - intros _ Hfind. now apply IH.
Qed.

(** A well-formed listing holds no match exactly when no rule of any of
    its routes names the host. *)
Lemma first_match_none host payload :
  first_match host payload = None <->
  forall item r,
    In item (elements (field "items" (JArr []) payload)) ->
    In r (rules_of item) ->
    field "host" JNull r <> JStr host.
Proof.
  unfold first_match.
  destruct (List.find _ _) as [[c h]|] eqn:Hfind; cbn; split; try easy.
  - intros Hno. exfalso. apply find_some in Hfind as [Hin Heq].
    apply in_flat_map in Hin as (item & Hitem & Hin).
    unfold candidates_of in Hin. apply in_map_iff in Hin as (r & [= _ <-] & Hr).
    apply (Hno item r Hitem Hr). now apply ListingFacts.eq_str_exact.
  - intros _ item r Hitem Hr Hh.
    pose proof (find_none _ _ Hfind) as Hnone.
    specialize (Hnone
      ({| conflict_namespace :=
            field "namespace" (JStr EmptyString)
              (field "metadata" (JObj []) item);
          conflict_ingress :=
            field "name" (JStr EmptyString)
              (field "metadata" (JObj []) item) |},
       field "host" JNull r)).
    cbn [snd] in Hnone. rewrite Hh in Hnone. cbn in Hnone.
    rewrite String.eqb_refl in Hnone. enough (true = false) by discriminate.
    apply Hnone. apply in_flat_map. exists item. split; [exact Hitem|].
    unfold candidates_of. apply in_map_iff. exists r. now rewrite Hh.
Qed.

End ScanFacts.

(** ** Running the handlers step by step *)

Section HandlerFacts.

Context {W : Type} `{Platform W}.
Variable P : paths.

Lemma bind_return {A B} (m : M W A) (k : A -> M W B) st a st' :
  m st = (Return a, st') -> bind m k st = k a st'.
Proof. intros Hm. unfold bind. now rewrite Hm. Qed.

Lemma run_command_answer cmd cwd timeout (st : state W) p w :
  subprocess_run cmd cwd timeout (world st) = (p, w) ->
  run_command cmd cwd timeout st
  = (Return (exit_code p, captured_out p, captured_err p),
     log_event (Ran cmd cwd timeout) w st).
Proof.
  intros Hp. unfold run_command. rewrite Hp.
  unfold exit_code, captured_out, captured_err.
  now destruct (folded p) as [[rc out] err].
Qed.

(** [run_command] always returns: no exception leaves it. *)
Lemma run_command_returns cmd cwd timeout (st : state W) :
  exists r w,
    run_command cmd cwd timeout st
    = (Return r, log_event (Ran cmd cwd timeout) w st).
Proof.
  unfold run_command.
  destruct (subprocess_run cmd cwd timeout (world st)) as [p w]. eauto.
Qed.

Lemma set_status_present sid s (st : state W) r :
  stores st !! sid = Some r ->
  set_status sid s st
  = (Return tt,
     {| world := world st;
        stores := <[sid := with_status s r]> (stores st);
        journal := journal st ++ [Marked sid s] |}).
Proof. intros Hr. unfold set_status. now rewrite Hr. Qed.

(** The conflict check runs one listing command and touches nothing else. *)
Lemma ingress_host_exists_frame host (st : state W) o st' :
  ingress_host_exists host st = (o, st') ->
  stores st' = stores st /\
  journal st' = journal st ++ [Ran kubectl_get_ingress None 600] /\
  no_http o.
Proof.
  unfold ingress_host_exists, bind, run_command.
  destruct (subprocess_run _ _ _ _) as [p w].
  destruct (folded p) as [[rc out] err].
  destruct (negb (rc =? 0) || Text.is_empty out).
  - intros [= <- <-]. split; [|split]; [reflexivity..|discriminate].
  - destruct (json_loads out) as [payload|].
    + unfold lift. intros [= <- <-]. split; [|split]; [reflexivity..|].
      apply scan_payload_no_http.
    + intros [= <- <-]. split; [|split]; [reflexivity..|discriminate].
Qed.

Lemma del_store_present sid (st : state W) r :
  stores st !! sid = Some r ->
  del_store sid st
  = (Return tt,
     {| world := world st; stores := delete sid (stores st);
        journal := journal st ++ [Removed sid] |}).
Proof. intros Hr. unfold del_store. now rewrite Hr. Qed.

Lemma draw_uuid_answer (st : state W) u w :
  uuid4_str (world st) = (u, w) ->
  draw_uuid st = (Return u, log_event (DrewUuid u) w st).
Proof. intros Hu. unfold draw_uuid. now rewrite Hu. Qed.

Lemma draw_token_answer n (st : state W) t w :
  token_urlsafe n (world st) = (t, w) ->
  draw_token n st
  = (Return t, {| world := w; stores := stores st; journal := journal st |}).
Proof. intros Ht. unfold draw_token. now rewrite Ht. Qed.

Lemma now_iso_answer (st : state W) t w :
  utcnow_isoformat (world st) = (t, w) ->
  now_iso st
  = (Return t, {| world := w; stores := stores st; journal := journal st |}).
Proof. intros Ht. unfold now_iso. now rewrite Ht. Qed.

Lemma is_empty_false (s : string) :
  s <> EmptyString -> Text.is_empty s = false.
Proof. destruct s; [congruence | reflexivity]. Qed.

(** Advance a handler over one call whose answer is known. *)
Ltac stepped lem Hp :=
  erewrite bind_return
    by (eapply lem; cbn [log_event world stores journal]; exact Hp);
  cbv beta iota.

Ltac ran Hp := stepped run_command_answer Hp.

Ltac tidy :=
  cbn [log_event world stores journal];
  rewrite <- ?app_assoc; cbn [app].

(** *** Deprovisioning *)

(** C6. Deprovisioning an id that the registry does not hold answers 404
    "Store not found"; the state is returned as it was: no command is
    launched and the registry is unchanged. *)
Theorem deprovision_unknown_id sid (st : state W) :
  stores st !! sid = None ->
  delete_store sid st = (HTTPException 404 "Store not found", st).
Proof. intros Hnone. unfold delete_store. now rewrite Hnone. Qed.

(** C5. Deprovisioning an id that the registry holds launches the release
    uninstall and then the namespace deletion, whatever the uninstall
    answered, then removes the registry entry whatever either answered.
    The answer is the partial-failure report, carrying the uninstall
    diagnostic and the deletion's exit code and both its streams (each
    text cut at 1000 characters), when the uninstall exit code is not 0,
    and "deleted" otherwise. *)
Theorem deprovision_known_id sid (st : state W) meta p w p2 w2 :
  stores st !! sid = Some meta ->
  subprocess_run (helm_uninstall (helm_release meta) (namespace meta))
    None 600 (world st) = (p, w) ->
  subprocess_run (kubectl_delete_namespace (namespace meta))
    None 600 w = (p2, w2) ->
  delete_store sid st
  = (Return
       (if exit_code p =? 0
        then Deleted (helm_release meta) (namespace meta)
        else UninstallError (Text.take 1000 (diagnostic p)) (exit_code p2)
               (Text.take 1000 (captured_out p2))
               (Text.take 1000 (captured_err p2))),
     {| world := w2;
        stores := delete sid (stores st);
        journal := journal st
                   ++ [Ran (helm_uninstall (helm_release meta) (namespace meta))
                         None 600;
                       Ran (kubectl_delete_namespace (namespace meta))
                         None 600;
                       Removed sid] |}).
Proof.
  intros Hmeta Hp Hp2. unfold delete_store. rewrite Hmeta.
  ran Hp. ran Hp2.
  erewrite bind_return
    by (eapply del_store_present; cbn [log_event stores]; exact Hmeta).
  unfold ret, diagnostic. tidy.
  destruct (exit_code p =? 0); reflexivity.
Qed.

(** *** The steps of provisioning *)

(** The creation test fails exactly on a non-zero exit code whose
    diagnostic does not mention "already exists" in any letter case. *)
Lemma creation_failed_iff rc out err :
  creation_failed rc out err = true <->
  rc <> 0 /\ ~ occurs_ci "already exists" (Text.or_else err out).
Proof.
  unfold creation_failed, occurs_ci.
  rewrite andb_true_iff, !negb_true_iff, Z.eqb_neq.
  apply and_iff_compat_l.
  rewrite <- not_true_iff_false, TextFacts.contains_app.
  split; intros Hno Hyes; apply Hno; clear Hno.
  - destruct Hyes as (pre & mid & post & -> & Hmid).
    exists (Text.lower pre), (Text.lower post).
    now rewrite !TextFacts.lower_app, Hmid.
  - destruct Hyes as (pre & post & Hlow).
    apply TextFacts.lower_split in Hlow as (a & b & -> & Ha & Hb).
    apply TextFacts.lower_split in Hb as (m & c & -> & Hm & Hc).
    now exists a, m, c.
Qed.

Lemma creation_passed_iff rc out err :
  creation_failed rc out err = false <->
  rc = 0 \/ occurs_ci "already exists" (Text.or_else err out).
Proof.
  rewrite <- not_true_iff_false, creation_failed_iff.
  destruct (Z.eq_dec rc 0) as [->|Hrc]; [intuition congruence|].
  split.
  - intros Hn. right.
    destruct (Text.contains "already exists"
                (Text.lower (Text.or_else err out))) eqn:Hc.
    + apply TextFacts.contains_app in Hc as (pre & post & Hlow).
      apply TextFacts.lower_split in Hlow as (a & b & -> & Ha & Hb).
      apply TextFacts.lower_split in Hb as (m & c & -> & Hm & Hc).
      now exists a, m, c.
    + exfalso. apply Hn. apply creation_failed_iff.
      unfold creation_failed. rewrite Hc.
      apply Z.eqb_neq in Hrc. now rewrite Hrc.
  - intros [Hz|Hocc] [_ Hno]; [congruence | now apply Hno].
Qed.

Lemma step_install_failed sid rel ns env dom (st : state W) r p w p1 w1 p2 w2 :
  stores st !! sid = Some r ->
  subprocess_run (helm_cmd P rel ns env dom) (Some (REPO_ROOT P)) 600
    (world st) = (p, w) ->
  exit_code p <> 0 ->
  subprocess_run (helm_uninstall rel ns) None 600 w = (p1, w1) ->
  subprocess_run (kubectl_delete_namespace ns) None 600 w1 = (p2, w2) ->
  step_install P sid rel ns env dom st
  = (HTTPException 500
       ("helm install failed: " +:+ Text.take 1000 (diagnostic p)),
     {| world := w2;
        stores := <[sid := with_status Failed r]> (stores st);
        journal := journal st
                   ++ [Ran (helm_cmd P rel ns env dom) (Some (REPO_ROOT P)) 600;
                       Ran (helm_uninstall rel ns) None 600;
                       Ran (kubectl_delete_namespace ns) None 600;
                       Marked sid Failed] |}).
Proof.
  intros Hr Hp Hrc Hp1 Hp2. unfold step_install.
  ran Hp. apply Z.eqb_neq in Hrc. rewrite Hrc. cbn [negb].
  ran Hp1. ran Hp2. stepped set_status_present Hr.
  unfold raise_http, diagnostic. now tidy.
Qed.

Lemma step_install_ready sid rel ns env dom (st : state W) r p w :
  stores st !! sid = Some r ->
  subprocess_run (helm_cmd P rel ns env dom) (Some (REPO_ROOT P)) 600
    (world st) = (p, w) ->
  exit_code p = 0 ->
  step_install P sid rel ns env dom st
  = (Return (response_of (with_status Ready r)),
     {| world := w;
        stores := <[sid := with_status Ready r]> (stores st);
        journal := journal st
                   ++ [Ran (helm_cmd P rel ns env dom) (Some (REPO_ROOT P)) 600;
                       Marked sid Ready] |}).
Proof.
  intros Hr Hp Hrc. unfold step_install.
  ran Hp. rewrite Hrc. cbn [Z.eqb negb].
  stepped set_status_present Hr.
  unfold bind, get_store, ret. tidy.
  now rewrite lookup_insert_eq.
Qed.

Lemma step_secret_answer sid rel ns env dom (st : state W) r t1 w1 t2 w2 p w :
  stores st !! sid = Some r ->
  token_urlsafe 16 (world st) = (t1, w1) ->
  token_urlsafe 16 w1 = (t2, w2) ->
  subprocess_run (kubectl_create_secret (ns +:+ "-db-secret") t1 t2 ns)
    None 600 w2 = (p, w) ->
  step_secret P sid rel ns env dom st
  = if creation_failed (exit_code p) (captured_out p) (captured_err p)
    then (HTTPException 500 ("Secret creation failed: " +:+ diagnostic p),
          {| world := w;
             stores := <[sid := with_status Failed r]> (stores st);
             journal := journal st
                        ++ [Ran (kubectl_create_secret (ns +:+ "-db-secret")
                                   t1 t2 ns) None 600;
                            Marked sid Failed] |})
    else step_install P sid rel ns env dom
           (log_event
              (Ran (kubectl_create_secret (ns +:+ "-db-secret") t1 t2 ns)
                 None 600) w st).
Proof.
  intros Hr Ht1 Ht2 Hp. unfold step_secret.
  stepped draw_token_answer Ht1. stepped draw_token_answer Ht2. ran Hp.
  destruct (creation_failed _ _ _); [|reflexivity].
  stepped set_status_present Hr.
  unfold raise_http, diagnostic. now tidy.
Qed.

Lemma step_namespace_answer sid rel ns env dom (st : state W) r p w :
  stores st !! sid = Some r ->
  subprocess_run (kubectl_create_namespace ns) None 600 (world st) = (p, w) ->
  step_namespace P sid rel ns env dom st
  = if creation_failed (exit_code p) (captured_out p) (captured_err p)
    then (HTTPException 500 ("Namespace creation failed: " +:+ diagnostic p),
          {| world := w;
             stores := <[sid := with_status Failed r]> (stores st);
             journal := journal st
                        ++ [Ran (kubectl_create_namespace ns) None 600;
                            Marked sid Failed] |})
    else step_secret P sid rel ns env dom
           (log_event (Ran (kubectl_create_namespace ns) None 600) w st).
Proof.
  intros Hr Hp. unfold step_namespace. ran Hp.
  destruct (creation_failed _ _ _); [|reflexivity].
  stepped set_status_present Hr.
  unfold raise_http, diagnostic. now tidy.
Qed.

(** *** Whole provision calls *)

Lemma commands_app (j1 j2 : list event) :
  commands (j1 ++ j2) = commands j1 ++ commands j2.
Proof.
  induction j1 as [|e j1 IH]; [reflexivity|].
  destruct e; simpl; now rewrite IH.
Qed.

(** A valid request is registered first; what follows is decided by the
    conflict check run on the registered state. *)
Lemma create_store_registers req (st : state W) u w1 t w2 :
  valid req ->
  uuid4_str (world st) = (u, w1) ->
  utcnow_isoformat w1 = (t, w2) ->
  create_store P req st
  = match ingress_host_exists (norm_domain req) (registered req u t w2 st) with
    | (Return (Some c), st2) =>
        (let* _ := set_status (Text.take 8 u) Failed in
         raise_http 409 (conflict_detail (norm_domain req) c)) st2
    | (Return None, st2) =>
        step_namespace P (Text.take 8 u) (stack_name req (Text.take 8 u))
          (stack_name req (Text.take 8 u)) (norm_env req) (norm_domain req)
          st2
    | (HTTPException c d, st2) => (HTTPException c d, st2)
    | (Uncaught e, st2) => (Uncaught e, st2)
    end.
Proof.
  intros [Hname Hdom] Hu Ht. unfold create_store.
  fold (norm_name req) (norm_domain req) (norm_env req).
  rewrite (is_empty_false _ Hname), (is_empty_false _ Hdom). cbn [orb].
  stepped draw_uuid_answer Hu. stepped now_iso_answer Ht.
  unfold bind at 1. unfold put_store at 1. tidy.
  unfold bind at 1. unfold registered, pending, stack_name.
  destruct (ingress_host_exists _ _) as [[[c|]| |] st2]; reflexivity.
Qed.

Lemma registered_lookup req u t w (st : state W) :
  stores (registered req u t w st) !! Text.take 8 u = Some (pending req u t).
Proof. unfold registered. cbn [stores]. apply lookup_insert_eq. Qed.

(** C2. When the conflict checker reports a match for the requested
    domain, the call marks the record Failed and raises HTTP 409; the only
    command launched during the call is the route listing, so no
    namespace, secret or release creation is invoked. *)
Theorem provision_conflict_stops req (st : state W) u w1 t w2 c st2 :
  valid req ->
  uuid4_str (world st) = (u, w1) ->
  utcnow_isoformat w1 = (t, w2) ->
  ingress_host_exists (norm_domain req) (registered req u t w2 st)
  = (Return (Some c), st2) ->
  create_store P req st
  = (HTTPException 409 (conflict_detail (norm_domain req) c),
     {| world := world st2;
        stores := <[Text.take 8 u := with_status Failed (pending req u t)]>
                    (stores st);
        journal := journal st
                   ++ [DrewUuid u; Stored (Text.take 8 u);
                       Ran kubectl_get_ingress None 600;
                       Marked (Text.take 8 u) Failed] |})
  /\ commands (journal st ++ [DrewUuid u; Stored (Text.take 8 u);
                              Ran kubectl_get_ingress None 600;
                              Marked (Text.take 8 u) Failed])
     = commands (journal st) ++ [kubectl_get_ingress].
Proof.
  intros Hv Hu Ht Hc. split; [|now rewrite commands_app].
  rewrite (create_store_registers _ _ _ _ _ _ Hv Hu Ht), Hc.
  destruct (ingress_host_exists_frame _ _ _ _ Hc) as (Hs & Hj & _).
  pose proof (registered_lookup req u t w2 st) as Hr. rewrite <- Hs in Hr.
  stepped set_status_present Hr.
  unfold raise_http. rewrite Hs, Hj. unfold registered. tidy.
  now rewrite insert_insert_eq.
Qed.

(** C1. When the conflict check passes, the namespace and the secret are
    created, and the release installation answers a non-zero code, the
    call launches the release uninstall once and then the namespace
    deletion once, whatever the two answer, then marks the record Failed
    and raises HTTP 500 with the installation diagnostic. *)
Theorem provision_install_failure_rolls_back req (st : state W)
    u w1 t w2 st2 pn wn t1 w3 t2 w4 ps ws pi wi pu wu pd wd :
  let sid := Text.take 8 u in
  let ns := stack_name req sid in
  let secret := kubectl_create_secret (ns +:+ "-db-secret") t1 t2 ns in
  let install := helm_cmd P ns ns (norm_env req) (norm_domain req) in
  valid req ->
  uuid4_str (world st) = (u, w1) ->
  utcnow_isoformat w1 = (t, w2) ->
  ingress_host_exists (norm_domain req) (registered req u t w2 st)
  = (Return None, st2) ->
  subprocess_run (kubectl_create_namespace ns) None 600 (world st2)
  = (pn, wn) ->
  creation_failed (exit_code pn) (captured_out pn) (captured_err pn) = false ->
  token_urlsafe 16 wn = (t1, w3) ->
  token_urlsafe 16 w3 = (t2, w4) ->
  subprocess_run secret None 600 w4 = (ps, ws) ->
  creation_failed (exit_code ps) (captured_out ps) (captured_err ps) = false ->
  subprocess_run install (Some (REPO_ROOT P)) 600 ws = (pi, wi) ->
  exit_code pi <> 0 ->
  subprocess_run (helm_uninstall ns ns) None 600 wi = (pu, wu) ->
  subprocess_run (kubectl_delete_namespace ns) None 600 wu = (pd, wd) ->
  create_store P req st
  = (HTTPException 500
       ("helm install failed: " +:+ Text.take 1000 (diagnostic pi)),
     {| world := wd;
        stores := <[sid := with_status Failed (pending req u t)]> (stores st);
        journal := journal st
                   ++ [DrewUuid u; Stored sid;
                       Ran kubectl_get_ingress None 600;
                       Ran (kubectl_create_namespace ns) None 600;
                       Ran secret None 600;
                       Ran install (Some (REPO_ROOT P)) 600;
                       Ran (helm_uninstall ns ns) None 600;
                       Ran (kubectl_delete_namespace ns) None 600;
                       Marked sid Failed] |}).
Proof.
  intros sid ns secret install Hv Hu Ht Hc Hpn Hn Ht1 Ht2 Hps Hs Hpi Hrc
    Hpu Hpd.
  rewrite (create_store_registers _ _ _ _ _ _ Hv Hu Ht), Hc.
  destruct (ingress_host_exists_frame _ _ _ _ Hc) as (Hst & Hj & _).
  pose proof (registered_lookup req u t w2 st) as Hr. rewrite <- Hst in Hr.
  fold sid ns in Hr |- *.
  rewrite (step_namespace_answer _ _ _ _ _ _ _ _ _ Hr Hpn), Hn.
  erewrite step_secret_answer; cycle 1.
  { cbn [log_event stores]. exact Hr. }
  { cbn [log_event world]. exact Ht1. }
  { exact Ht2. }
  { exact Hps. }
  fold secret. rewrite Hs.
  erewrite step_install_failed; cycle 1.
  { cbn [log_event stores]. exact Hr. }
  { cbn [log_event world]. exact Hpi. }
  { exact Hrc. }
  { exact Hpu. }
  { exact Hpd. }
  tidy. rewrite Hst, Hj. unfold registered. tidy.
  now rewrite insert_insert_eq.
Qed.

(** *** What every provision call does *)

Lemma stretch_after release ns env dom sid r cmd cwd t w
    (st : state W) o st' :
  provision_command P release ns env dom cmd ->
  stretch P release ns env dom sid r (log_event (Ran cmd cwd t) w st) o st' ->
  stretch P release ns env dom sid r st o st'.
Proof.
  intros Hcmd (s & evs & Hs & Hj & Hi & Hd & Hc & Hresp).
  exists s, (Ran cmd cwd t :: evs). cbn [log_event stores journal] in Hs, Hj.
  rewrite <- app_assoc in Hj. repeat split; try assumption.
  cbn [commands]. now constructor.
Qed.

Lemma step_install_stretch sid rel ns env dom (st : state W) r o st' :
  stores st !! sid = Some r ->
  step_install P sid rel ns env dom st = (o, st') ->
  stretch P rel ns env dom sid r st o st'.
Proof.
  intros Hr.
  destruct (subprocess_run (helm_cmd P rel ns env dom) (Some (REPO_ROOT P))
              600 (world st)) as [p w] eqn:Hp.
  destruct (Z.eq_dec (exit_code p) 0) as [Hz|Hnz].
  - rewrite (step_install_ready _ _ _ _ _ _ _ _ _ Hr Hp Hz).
    intros [= <- <-]. exists Ready, [Ran (helm_cmd P rel ns env dom)
                                     (Some (REPO_ROOT P)) 600; Marked sid Ready].
    cbn [stores journal commands stored_ids drawn].
    repeat split; [|now intros resp [= <-]].
    constructor; [|constructor]. unfold provision_command. tauto.
  - destruct (subprocess_run (helm_uninstall rel ns) None 600 w)
      as [p1 w1] eqn:Hp1.
    destruct (subprocess_run (kubectl_delete_namespace ns) None 600 w1)
      as [p2 w2] eqn:Hp2.
    rewrite (step_install_failed _ _ _ _ _ _ _ _ _ _ _ _ _ Hr Hp Hnz Hp1 Hp2).
    intros [= <- <-].
    exists Failed, [Ran (helm_cmd P rel ns env dom) (Some (REPO_ROOT P)) 600;
                    Ran (helm_uninstall rel ns) None 600;
                    Ran (kubectl_delete_namespace ns) None 600;
                    Marked sid Failed].
    cbn [stores journal commands stored_ids drawn].
    repeat split; [|discriminate].
    repeat constructor; unfold provision_command; tauto.
Qed.

Lemma step_secret_stretch sid rel ns env dom (st : state W) r o st' :
  stores st !! sid = Some r ->
  step_secret P sid rel ns env dom st = (o, st') ->
  stretch P rel ns env dom sid r st o st'.
Proof.
  intros Hr.
  destruct (token_urlsafe 16 (world st)) as [t1 w1] eqn:Ht1.
  destruct (token_urlsafe 16 w1) as [t2 w2] eqn:Ht2.
  destruct (subprocess_run
              (kubectl_create_secret (ns +:+ "-db-secret") t1 t2 ns)
              None 600 w2) as [p w] eqn:Hp.
  assert (Hcmd : provision_command P rel ns env dom
                   (kubectl_create_secret (ns +:+ "-db-secret") t1 t2 ns)).
  { unfold provision_command. right. right. left. now exists t1, t2. }
  rewrite (step_secret_answer _ _ _ _ _ _ _ _ _ _ _ _ _ Hr Ht1 Ht2 Hp).
  destruct (creation_failed _ _ _).
  - intros [= <- <-].
    exists Failed, [Ran (kubectl_create_secret (ns +:+ "-db-secret") t1 t2 ns)
                      None 600; Marked sid Failed].
    cbn [stores journal commands stored_ids drawn].
    repeat split; [|discriminate]. constructor; [exact Hcmd | constructor].
  - intros Hrun. eapply stretch_after; [exact Hcmd|].
    eapply step_install_stretch; [|exact Hrun]. exact Hr.
Qed.

Lemma step_namespace_stretch sid rel ns env dom (st : state W) r o st' :
  stores st !! sid = Some r ->
  step_namespace P sid rel ns env dom st = (o, st') ->
  stretch P rel ns env dom sid r st o st'.
Proof.
  intros Hr.
  destruct (subprocess_run (kubectl_create_namespace ns) None 600 (world st))
    as [p w] eqn:Hp.
  assert (Hcmd : provision_command P rel ns env dom
                   (kubectl_create_namespace ns)).
  { unfold provision_command. tauto. }
  rewrite (step_namespace_answer _ _ _ _ _ _ _ _ _ Hr Hp).
  destruct (creation_failed _ _ _).
  - intros [= <- <-].
    exists Failed, [Ran (kubectl_create_namespace ns) None 600;
                    Marked sid Failed].
    cbn [stores journal commands stored_ids drawn].
    repeat split; [|discriminate]. constructor; [exact Hcmd | constructor].
  - intros Hrun. eapply stretch_after; [exact Hcmd|].
    eapply step_secret_stretch; [|exact Hrun]. exact Hr.
Qed.

Lemma valid_dec req :
  {valid req} + {Text.is_empty (norm_name req)
                 || Text.is_empty (norm_domain req) = true}.
Proof.
  unfold valid.
  destruct (norm_name req); [right; reflexivity|].
  destruct (norm_domain req); [right; reflexivity|].
  left. split; discriminate.
Qed.

Lemma create_store_rejects req (st : state W) :
  Text.is_empty (norm_name req) || Text.is_empty (norm_domain req) = true ->
  create_store P req st
  = (HTTPException 400 "store_name and domain are required", st).
Proof.
  intros He. unfold create_store.
  fold (norm_name req) (norm_domain req). now rewrite He.
Qed.

(** Every call either rejects the request and leaves the state alone, or
    draws one UUID, registers one record under its first eight
    characters, and from then on behaves as a stretch on that record. *)
Lemma create_store_shape req (st : state W) o st' :
  create_store P req st = (o, st') ->
  (~ valid req
   /\ o = HTTPException 400 "store_name and domain are required"
   /\ st' = st)
  \/ (valid req
      /\ exists u w t s evs,
           uuid4_str (world st) = (u, w)
           /\ stores st'
              = <[Text.take 8 u := with_status s (pending req u t)]> (stores st)
           /\ journal st'
              = journal st ++ DrewUuid u :: Stored (Text.take 8 u) :: evs
           /\ stored_ids evs = []
           /\ drawn evs = []
           /\ Forall (provision_command P (stack_name req (Text.take 8 u))
                        (stack_name req (Text.take 8 u)) (norm_env req)
                        (norm_domain req)) (commands evs)
           /\ forall resp,
                o = Return resp ->
                resp = response_of (with_status s (pending req u t))).
Proof.
  destruct (valid_dec req) as [Hv|He].
  2:{ rewrite (create_store_rejects _ _ He). intros [= <- <-]. left.
      split; [|split; reflexivity].
      intros [Hn Hd]. apply is_empty_false in Hn, Hd.
      rewrite Hn, Hd in He. discriminate. }
  destruct (uuid4_str (world st)) as [u w1] eqn:Hu.
  destruct (utcnow_isoformat w1) as [t w2] eqn:Ht.
  rewrite (create_store_registers _ _ _ _ _ _ Hv Hu Ht).
  destruct (ingress_host_exists _ _) as [ans st2] eqn:Hc.
  destruct (ingress_host_exists_frame _ _ _ _ Hc) as (Hs & Hj & Hno).
  pose proof (registered_lookup req u t w2 st) as Hr. rewrite <- Hs in Hr.
  assert (Hlist : provision_command P (stack_name req (Text.take 8 u))
                    (stack_name req (Text.take 8 u)) (norm_env req)
                    (norm_domain req) kubectl_get_ingress).
  { unfold provision_command. tauto. }
  intros Hrun. right. split; [exact Hv|]. exists u, w1, t.
  destruct ans as [[c|]|c d|e].
  - rewrite (bind_return _ _ _ _ _ (set_status_present _ _ _ _ Hr)) in Hrun.
    unfold raise_http in Hrun. injection Hrun as <- <-.
    exists Failed, [Ran kubectl_get_ingress None 600;
                    Marked (Text.take 8 u) Failed].
    cbn [stores journal commands stored_ids drawn].
    rewrite Hs, Hj. unfold registered. tidy.
    rewrite insert_insert_eq.
    repeat split; [|discriminate]. constructor; [exact Hlist | constructor].
  - apply (step_namespace_stretch _ _ _ _ _ _ _ _ _ Hr) in Hrun.
    destruct Hrun as (s & evs & Hs' & Hj' & Hi & Hd & Hcs & Hresp).
    exists s, (Ran kubectl_get_ingress None 600 :: evs).
    rewrite Hs', Hj', Hs, Hj. unfold registered. tidy.
    rewrite insert_insert_eq.
    repeat split; try assumption. cbn [commands]. now constructor.
  - now destruct (Hno c d).
  - injection Hrun as <- <-.
    exists Provisioning, [Ran kubectl_get_ingress None 600].
    rewrite Hs, Hj. unfold registered. tidy.
    repeat split; [|discriminate]. constructor; [exact Hlist | constructor].
Qed.

(** C3, as the code has it. A namespace or secret creation that answers
    a non-zero exit code counts as done, and provisioning goes on with the
    next step, whenever "already exists" occurs in any letter case in the
    text the handler inspects: the captured standard error when that is
    not empty, the captured standard output otherwise.  When it does not
    occur there, the record is marked Failed and HTTP 500 is raised. *)
Theorem idempotent_create_convention sid rel ns env dom (st : state W) r
    pn wn t1 w1 t2 w2 ps ws :
  let secret := kubectl_create_secret (ns +:+ "-db-secret") t1 t2 ns in
  stores st !! sid = Some r ->
  subprocess_run (kubectl_create_namespace ns) None 600 (world st)
  = (pn, wn) ->
  token_urlsafe 16 (world st) = (t1, w1) ->
  token_urlsafe 16 w1 = (t2, w2) ->
  subprocess_run secret None 600 w2 = (ps, ws) ->
  (exit_code pn <> 0 ->
   (occurs_ci "already exists" (diagnostic pn) ->
    step_namespace P sid rel ns env dom st
    = step_secret P sid rel ns env dom
        (log_event (Ran (kubectl_create_namespace ns) None 600) wn st))
   /\ (~ occurs_ci "already exists" (diagnostic pn) ->
       step_namespace P sid rel ns env dom st
       = (HTTPException 500 ("Namespace creation failed: " +:+ diagnostic pn),
          {| world := wn;
             stores := <[sid := with_status Failed r]> (stores st);
             journal := journal st
                        ++ [Ran (kubectl_create_namespace ns) None 600;
                            Marked sid Failed] |})))
  /\ (exit_code ps <> 0 ->
      (occurs_ci "already exists" (diagnostic ps) ->
       step_secret P sid rel ns env dom st
       = step_install P sid rel ns env dom
           (log_event (Ran secret None 600) ws st))
      /\ (~ occurs_ci "already exists" (diagnostic ps) ->
          step_secret P sid rel ns env dom st
          = (HTTPException 500 ("Secret creation failed: " +:+ diagnostic ps),
             {| world := ws;
                stores := <[sid := with_status Failed r]> (stores st);
                journal := journal st
                           ++ [Ran secret None 600; Marked sid Failed] |}))).
Proof.
  intros secret Hr Hpn Ht1 Ht2 Hps.
  rewrite (step_namespace_answer _ _ _ _ _ _ _ _ _ Hr Hpn).
  rewrite (step_secret_answer _ _ _ _ _ _ _ _ _ _ _ _ _ Hr Ht1 Ht2 Hps).
  fold secret. unfold diagnostic.
  split; intros Hrc; split; intros Hocc.
  - assert (Hok : creation_failed (exit_code pn) (captured_out pn)
                    (captured_err pn) = false)
      by (apply creation_passed_iff; now right).
    now rewrite Hok.
  - assert (Hko : creation_failed (exit_code pn) (captured_out pn)
                    (captured_err pn) = true)
      by (now apply creation_failed_iff).
    now rewrite Hko.
  - assert (Hok : creation_failed (exit_code ps) (captured_out ps)
                    (captured_err ps) = false)
      by (apply creation_passed_iff; now right).
    now rewrite Hok.
  - assert (Hko : creation_failed (exit_code ps) (captured_out ps)
                    (captured_err ps) = true)
      by (now apply creation_failed_iff).
    now rewrite Hko.
Qed.

(** C4. After a call for a valid request the registry holds, under the
    generated id, a record whose namespace and release name are the same
    string: the trimmed, lower-cased store name, a hyphen, and the id.
    A returned response carries the same two names. *)
Theorem derived_names_agree req (st : state W) u w o st' :
  valid req ->
  uuid4_str (world st) = (u, w) ->
  create_store P req st = (o, st') ->
  exists r,
    stores st' !! Text.take 8 u = Some r
    /\ id r = Text.take 8 u
    /\ namespace r = helm_release r
    /\ namespace r
       = Text.lower (Text.strip (req_store_name req)) +:+ "-" +:+ Text.take 8 u
    /\ forall resp,
         o = Return resp ->
         resp_namespace resp = namespace r
         /\ resp_helm_release resp = helm_release r.
Proof.
  intros Hv Hu Hrun.
  destruct (create_store_shape _ _ _ _ Hrun) as [[Hnv _]|[_ Hshape]];
    [contradiction|].
  destruct Hshape as (u' & w' & t & s & evs & Hu' & Hs & _ & _ & _ & _ & Hresp).
  rewrite Hu in Hu'. injection Hu' as <- <-.
  exists (with_status s (pending req u t)). rewrite Hs.
  split; [apply lookup_insert_eq|].
  do 3 (split; [reflexivity|]).
  intros resp Ho. rewrite (Hresp _ Ho). split; reflexivity.
Qed.

Lemma stored_ids_app (j1 j2 : list event) :
  stored_ids (j1 ++ j2) = stored_ids j1 ++ stored_ids j2.
Proof.
  induction j1 as [|e j1 IH]; [reflexivity|].
  destruct e; simpl; now rewrite IH.
Qed.

Lemma drawn_app (j1 j2 : list event) :
  drawn (j1 ++ j2) = drawn j1 ++ drawn j2.
Proof.
  induction j1 as [|e j1 IH]; [reflexivity|].
  destruct e; simpl; now rewrite IH.
Qed.


(** The registry after a sequence of calls: its keys are the keys it had
    and the ids inserted, each id being the first eight characters of the
    UUID drawn by its call. *)
Lemma provision_all_journal reqs (st : state W) outs st' :
  provision_all P reqs st = (outs, st') ->
  exists evs,
    journal st' = journal st ++ evs
    /\ stored_ids evs = map (Text.take 8) (drawn evs)
    /\ dom (stores st') = dom (stores st) ∪ list_to_set (stored_ids evs).
Proof.
  revert st outs st'. induction reqs as [|req reqs IH]; intros st outs st'.
  - intros [= <- <-]. exists []. rewrite app_nil_r. cbn.
    repeat split. set_solver.
  - cbn [provision_all].
    destruct (create_store P req st) as [o st1] eqn:Hrun.
    destruct (provision_all P reqs st1) as [os st2] eqn:Hrest.
    intros [= <- <-].
    destruct (IH _ _ _ Hrest) as (evs2 & Hj2 & Hi2 & Hd2).
    destruct (create_store_shape _ _ _ _ Hrun) as [(_ & _ & ->)|[_ Hshape]].
    { now exists evs2. }
    destruct Hshape as (u & w & t & s & evs & _ & Hs & Hj & Hi & Hd & _ & _).
    exists (DrewUuid u :: Stored (Text.take 8 u) :: evs ++ evs2).
    rewrite Hj2, Hj, <- app_assoc. split; [reflexivity|].
    cbn [stored_ids drawn map]. rewrite stored_ids_app, drawn_app, Hi, Hd.
    cbn [app map]. split; [now rewrite Hi2|].
    rewrite Hd2, Hs, dom_insert_L. cbn [list_to_set]. set_solver.
Qed.

(** *** The conflict checker *)

(** What the checker answers, by the answer of the listing command: no
    conflict when the command failed or printed nothing; no conflict when
    its output does not decode; the first matching rule, or none, when the
    output decodes to a well-formed listing. *)
Lemma conflict_check_answers host (st : state W) p w :
  subprocess_run kubectl_get_ingress None 600 (world st) = (p, w) ->
  let st1 := log_event (Ran kubectl_get_ingress None 600) w st in
  (exit_code p <> 0 \/ captured_out p = EmptyString ->
   ingress_host_exists host st = (Return None, st1))
  /\ (exit_code p = 0 -> captured_out p <> EmptyString ->
      json_loads (captured_out p) = None ->
      ingress_host_exists host st = (Return None, st1))
  /\ (forall payload,
        exit_code p = 0 -> captured_out p <> EmptyString ->
        json_loads (captured_out p) = Some payload ->
        Listing.well_formed payload = true ->
        ingress_host_exists host st
        = (Return (Listing.first_match host payload), st1)).
Proof.
  intros Hp st1. unfold ingress_host_exists. ran Hp. fold st1.
  split; [|split].
  - intros [Hrc|Hout].
    + apply Z.eqb_neq in Hrc. now rewrite Hrc.
    + rewrite Hout. now rewrite orb_true_r.
  - intros Hrc Hout Hdec.
    rewrite Hrc, (is_empty_false _ Hout), Hdec. reflexivity.
  - intros payload Hrc Hout Hdec Hwf.
    rewrite Hrc, (is_empty_false _ Hout), Hdec. cbn [Z.eqb negb orb].
    unfold lift. now rewrite (ListingFacts.scan_payload_first_match _ _ Hwf).
Qed.

(** A decoded value that is not a dict (an array, a string, a number,
    [null]) has no [get]: the checker raises instead of answering. *)
Lemma conflict_check_not_a_dict host (st : state W) p w payload :
  subprocess_run kubectl_get_ingress None 600 (world st) = (p, w) ->
  exit_code p = 0 -> captured_out p <> EmptyString ->
  json_loads (captured_out p) = Some payload ->
  Listing.is_obj payload = false ->
  ingress_host_exists host st
  = (Uncaught AttributeError,
     log_event (Ran kubectl_get_ingress None 600) w st).
Proof.
  intros Hp Hrc Hout Hdec Hshape. unfold ingress_host_exists. ran Hp.
  rewrite Hrc, (is_empty_false _ Hout), Hdec. cbn [Z.eqb negb orb].
  unfold lift, scan_payload. now destruct payload.
Qed.

(** *** Echoed diagnostics *)

(** The text echoed after a failed release installation and the three
    texts of a partial-teardown report are cut at 1000 characters. *)
Lemma echo_bounded (text : string) :
  (String.length (Text.take 1000 text) <= 1000)%nat.
Proof. apply TextFacts.take_length. Qed.

(** * Further properties of the handlers *)

(** *** Deprovisioning, whatever the commands answer *)

Lemma delete_store_cases sid (st : state W) o st' :
  delete_store sid st = (o, st') ->
  (stores st !! sid = None
   /\ o = HTTPException 404 "Store not found" /\ st' = st)
  \/ (exists meta resp,
        stores st !! sid = Some meta
        /\ o = Return resp
        /\ stores st' = delete sid (stores st)
        /\ journal st'
           = journal st
             ++ [Ran (helm_uninstall (helm_release meta) (namespace meta))
                   None 600;
                 Ran (kubectl_delete_namespace (namespace meta)) None 600;
                 Removed sid]).
Proof.
  unfold delete_store. destruct (stores st !! sid) as [meta|] eqn:Hmeta.
  2:{ intros [= <- <-]. now left. }
  destruct (subprocess_run (helm_uninstall (helm_release meta) (namespace meta))
              None 600 (world st)) as [p w] eqn:Hp.
  destruct (subprocess_run (kubectl_delete_namespace (namespace meta))
              None 600 w) as [p2 w2] eqn:Hp2.
  ran Hp. ran Hp2.
  erewrite bind_return
    by (eapply del_store_present; cbn [log_event stores]; exact Hmeta).
  unfold ret. tidy. intros Hrun. right. exists meta.
  destruct (negb (exit_code p =? 0)); injection Hrun as <- <-;
    eexists; repeat split.
Qed.

(** X2. A deprovision call never lets an exception escape and raises no
    HTTP error but 404, which leaves the state as it was.  After the call
    the registry has no record under the id, and every other record is
    what it was. *)
Theorem deprovision_touches_one_record sid (st : state W) o st' :
  delete_store sid st = (o, st') ->
  (forall e, o <> Uncaught e)
  /\ (forall c d, o = HTTPException c d -> c = 404 /\ st' = st)
  /\ stores st' !! sid = None
  /\ forall k, k <> sid -> stores st' !! k = stores st !! k.
Proof.
  intros Hrun.
  destruct (delete_store_cases _ _ _ _ Hrun)
    as [(Hnone & -> & ->)|(meta & resp & Hmeta & -> & Hs & _)].
  - split; [discriminate|]. split; [|split].
    + intros c d [= <- _]. now split.
    + exact Hnone.
    + reflexivity.
  - rewrite Hs. split; [discriminate|]. split; [discriminate|]. split.
    + apply lookup_delete_eq.
    + intros k Hk. now apply lookup_delete_ne.
Qed.

(** X3. Deprovisioning is not repeatable: once a call for an id has
    returned, a second call for the same id answers 404 and launches
    nothing. *)
Theorem deprovision_twice sid (st : state W) resp st' :
  delete_store sid st = (Return resp, st') ->
  delete_store sid st' = (HTTPException 404 "Store not found", st').
Proof.
  intros Hrun.
  destruct (delete_store_cases _ _ _ _ Hrun)
    as [(_ & [=] & _)|(meta & resp' & _ & _ & Hs & _)].
  unfold delete_store. now rewrite Hs, lookup_delete_eq.
Qed.

(** *** How a provision call can end *)

Lemma step_install_ends sid rel ns env dom (st : state W) r o st' :
  stores st !! sid = Some r ->
  step_install P sid rel ns env dom st = (o, st') ->
  exists s evs,
    stores st' = <[sid := with_status s r]> (stores st)
    /\ journal st' = journal st ++ evs
    /\ install_ending P rel ns env dom sid r o s evs.
Proof.
  intros Hr.
  destruct (subprocess_run (helm_cmd P rel ns env dom) (Some (REPO_ROOT P))
              600 (world st)) as [p w] eqn:Hp.
  destruct (Z.eq_dec (exit_code p) 0) as [Hz|Hnz].
  - rewrite (step_install_ready _ _ _ _ _ _ _ _ _ Hr Hp Hz).
    intros [= <- <-]. do 2 eexists. cbn [stores journal].
    split; [reflexivity|]. split; [reflexivity|]. now right.
  - destruct (subprocess_run (helm_uninstall rel ns) None 600 w)
      as [p1 w1] eqn:Hp1.
    destruct (subprocess_run (kubectl_delete_namespace ns) None 600 w1)
      as [p2 w2] eqn:Hp2.
    rewrite (step_install_failed _ _ _ _ _ _ _ _ _ _ _ _ _ Hr Hp Hnz Hp1 Hp2).
    intros [= <- <-]. do 2 eexists. cbn [stores journal].
    split; [reflexivity|]. split; [reflexivity|]. left. now eexists.
Qed.

Lemma step_secret_ends sid rel ns env dom (st : state W) r o st' :
  stores st !! sid = Some r ->
  step_secret P sid rel ns env dom st = (o, st') ->
  exists s evs,
    stores st' = <[sid := with_status s r]> (stores st)
    /\ journal st' = journal st ++ evs
    /\ secret_ending P rel ns env dom sid r o s evs.
Proof.
  intros Hr.
  destruct (token_urlsafe 16 (world st)) as [t1 w1] eqn:Ht1.
  destruct (token_urlsafe 16 w1) as [t2 w2] eqn:Ht2.
  destruct (subprocess_run
              (kubectl_create_secret (ns +:+ "-db-secret") t1 t2 ns)
              None 600 w2) as [p w] eqn:Hp.
  rewrite (step_secret_answer _ _ _ _ _ _ _ _ _ _ _ _ _ Hr Ht1 Ht2 Hp).
  destruct (creation_failed _ _ _).
  - intros [= <- <-]. do 2 eexists. cbn [stores journal].
    split; [reflexivity|]. split; [reflexivity|].
    exists t1, t2. left. now eexists.
  - intros Hrun. apply step_install_ends with (r := r) in Hrun; [|exact Hr].
    destruct Hrun as (s & evs & Hs & Hj & Hend).
    cbn [log_event stores journal] in Hs, Hj. rewrite <- app_assoc in Hj.
    exists s. eexists. split; [exact Hs|]. split; [exact Hj|].
    exists t1, t2. right. now exists evs.
Qed.

Lemma step_namespace_ends sid rel ns env dom (st : state W) r o st' :
  stores st !! sid = Some r ->
  step_namespace P sid rel ns env dom st = (o, st') ->
  exists s evs,
    stores st' = <[sid := with_status s r]> (stores st)
    /\ journal st' = journal st ++ evs
    /\ namespace_ending P rel ns env dom sid r o s evs.
Proof.
  intros Hr.
  destruct (subprocess_run (kubectl_create_namespace ns) None 600 (world st))
    as [p w] eqn:Hp.
  rewrite (step_namespace_answer _ _ _ _ _ _ _ _ _ Hr Hp).
  destruct (creation_failed _ _ _).
  - intros [= <- <-]. do 2 eexists. cbn [stores journal].
    split; [reflexivity|]. split; [reflexivity|]. left. now eexists.
  - intros Hrun. apply step_secret_ends with (r := r) in Hrun; [|exact Hr].
    destruct Hrun as (s & evs & Hs & Hj & Hend).
    cbn [log_event stores journal] in Hs, Hj. rewrite <- app_assoc in Hj.
    exists s. eexists. split; [exact Hs|]. split; [exact Hj|].
    right. now exists evs.
Qed.

(** Every call for a valid request registers the record, launches the
    route listing, and then ends in one of the ways of [call_ending]. *)
Lemma create_store_ends req (st : state W) u w1 o st' :
  valid req ->
  uuid4_str (world st) = (u, w1) ->
  create_store P req st = (o, st') ->
  exists t s evs,
    stores st'
    = <[Text.take 8 u := with_status s (pending req u t)]> (stores st)
    /\ journal st'
       = journal st
         ++ DrewUuid u :: Stored (Text.take 8 u)
            :: Ran kubectl_get_ingress None 600 :: evs
    /\ call_ending P (stack_name req (Text.take 8 u))
         (stack_name req (Text.take 8 u)) (norm_env req) (norm_domain req)
         (Text.take 8 u) (pending req u t) o s evs.
Proof.
  intros Hv Hu.
  destruct (utcnow_isoformat w1) as [t w2] eqn:Ht.
  rewrite (create_store_registers _ _ _ _ _ _ Hv Hu Ht).
  destruct (ingress_host_exists _ _) as [ans st2] eqn:Hc.
  destruct (ingress_host_exists_frame _ _ _ _ Hc) as (Hs & Hj & Hno).
  pose proof (registered_lookup req u t w2 st) as Hr. rewrite <- Hs in Hr.
  intros Hrun. exists t.
  destruct ans as [[c|]|c d|e].
  - rewrite (bind_return _ _ _ _ _ (set_status_present _ _ _ _ Hr)) in Hrun.
    unfold raise_http in Hrun. injection Hrun as <- <-.
    exists Failed, [Marked (Text.take 8 u) Failed].
    cbn [stores journal]. rewrite Hs, Hj. unfold registered. tidy.
    rewrite insert_insert_eq. split; [reflexivity|]. split; [reflexivity|].
    right. left. now eexists.
  - apply step_namespace_ends with (r := pending req u t) in Hrun;
      [|exact Hr].
    destruct Hrun as (s & evs & Hs' & Hj' & Hend).
    exists s, evs. rewrite Hs', Hj', Hs, Hj. unfold registered. tidy.
    rewrite insert_insert_eq. split; [reflexivity|]. split; [reflexivity|].
    right. right. exact Hend.
  - now destruct (Hno c d).
  - injection Hrun as <- <-. exists Provisioning, [].
    rewrite Hs, Hj. unfold registered. tidy.
    split; [reflexivity|]. split; [reflexivity|]. left. now exists e.
Qed.

Lemma valid_iff_not_blank req :
  valid req <->
  blank (req_store_name req) = false /\ blank (req_domain req) = false.
Proof.
  unfold valid, norm_name, norm_domain.
  rewrite TrimFacts.lower_empty, !TrimFacts.strip_blank,
    !not_true_iff_false. reflexivity.
Qed.

(** X4. A request whose store name or domain is empty or white space only
    is answered 400 before anything happens: the state is returned as it
    was, so no id is drawn, no record inserted and no command launched.
    No other request is ever answered 400. *)
Theorem blank_request_rejected req (st : state W) :
  (blank (req_store_name req) = true \/ blank (req_domain req) = true ->
   create_store P req st
   = (HTTPException 400 "store_name and domain are required", st))
  /\ (blank (req_store_name req) = false ->
      blank (req_domain req) = false ->
      forall d, fst (create_store P req st) <> HTTPException 400 d).
Proof.
  split.
  - intros Hblank. apply create_store_rejects.
    destruct (valid_dec req) as [Hv|He]; [|exact He].
    apply valid_iff_not_blank in Hv as [Hn Hd].
    destruct Hblank; congruence.
  - intros Hn Hd d.
    assert (Hv : valid req) by (apply valid_iff_not_blank; now split).
    destruct (uuid4_str (world st)) as [u w1] eqn:Hu.
    destruct (create_store P req st) as [o st'] eqn:Hrun.
    destruct (create_store_ends _ _ _ _ _ _ Hv Hu Hrun)
      as (t & s & evs & _ & _ & Hend).
    cbn [fst].
    destruct Hend as [(e & -> & _)|[(d' & -> & _)|Hns]]; try discriminate.
    destruct Hns as [(d' & -> & _)|(evs1 & _ & t1 & t2 & Hsec)];
      try discriminate.
    destruct Hsec as [(d' & -> & _)|(evs2 & _ & Hin)]; try discriminate.
    destruct Hin as [(d' & -> & _)|(-> & _)]; discriminate.
Qed.

(** X5. After a call for a valid request the outcome and the status of
    the record agree: a response is returned exactly with a Ready record
    and renders it; an HTTP error is 409 or 500 and leaves the record
    Failed; an escaped exception leaves it Provisioning. *)
Theorem outcome_matches_status req (st : state W) u w o st' :
  valid req ->
  uuid4_str (world st) = (u, w) ->
  create_store P req st = (o, st') ->
  exists r,
    stores st' !! Text.take 8 u = Some r
    /\ match o with
       | Return resp => status r = Ready /\ resp = response_of r
       | HTTPException c _ => (c = 409 \/ c = 500) /\ status r = Failed
       | Uncaught _ => status r = Provisioning
       end.
Proof.
  intros Hv Hu Hrun.
  destruct (create_store_ends _ _ _ _ _ _ Hv Hu Hrun)
    as (t & s & evs & Hs & _ & Hend).
  exists (with_status s (pending req u t)). rewrite Hs.
  split; [apply lookup_insert_eq|].
  destruct Hend as [(e & -> & -> & _)|[(d' & -> & -> & _)|Hns]];
    [reflexivity | split; [now left | reflexivity] |].
  destruct Hns as [(d' & -> & -> & _)|(evs1 & _ & t1 & t2 & Hsec)];
    [split; [now right | reflexivity] |].
  destruct Hsec as [(d' & -> & -> & _)|(evs2 & _ & Hin)];
    [split; [now right | reflexivity] |].
  destruct Hin as [(d' & -> & -> & _)|(-> & -> & _)];
    [split; [now right | reflexivity] | now split].
Qed.

(** X6. The commands of a call for a valid request are an initial part of
    one fixed sequence: route listing, namespace creation, secret
    creation, release installation, release uninstall, namespace
    deletion.  A returned response means exactly the first four were
    launched; otherwise the first one, two or three were, or all six: the
    two clean-up commands are never launched without the installation,
    and never one without the other. *)
Theorem provision_command_sequences req (st : state W) u w o st' :
  valid req ->
  uuid4_str (world st) = (u, w) ->
  create_store P req st = (o, st') ->
  let ns := stack_name req (Text.take 8 u) in
  let cmds := commands (drop (length (journal st)) (journal st')) in
  exists t1 t2,
    let full :=
      [kubectl_get_ingress; kubectl_create_namespace ns;
       kubectl_create_secret (ns +:+ "-db-secret") t1 t2 ns;
       helm_cmd P ns ns (norm_env req) (norm_domain req);
       helm_uninstall ns ns; kubectl_delete_namespace ns] in
    ((exists resp, o = Return resp) /\ cmds = take 4 full)
    \/ ((forall resp, o <> Return resp)
        /\ (cmds = take 1 full \/ cmds = take 2 full
            \/ cmds = take 3 full \/ cmds = full)).
Proof.
  intros Hv Hu Hrun ns cmds. subst cmds.
  destruct (create_store_ends _ _ _ _ _ _ Hv Hu Hrun)
    as (t & s & evs & _ & Hj & Hend).
  rewrite Hj, drop_app_length. fold ns in Hend |- *.
  destruct Hend as [(e & -> & _ & ->)|[(d' & -> & _ & ->)|Hns]].
  { exists EmptyString, EmptyString. right. split; [discriminate | now left]. }
  { exists EmptyString, EmptyString. right. split; [discriminate | now left]. }
  destruct Hns as [(d' & -> & _ & ->)|(evs1 & -> & t1 & t2 & Hsec)].
  { exists EmptyString, EmptyString. right.
    split; [discriminate | right; now left]. }
  exists t1, t2.
  destruct Hsec as [(d' & -> & _ & ->)|(evs2 & -> & Hin)].
  { right. split; [discriminate | right; right; now left]. }
  destruct Hin as [(d' & -> & _ & ->)|(-> & _ & ->)].
  - right. split; [discriminate | now do 3 right].
  - left. split; [now eexists | reflexivity].
Qed.

(** X7. A call writes the status of its record at most once, and that
    write is its last effect: no command is launched after the record has
    been marked Failed or Ready.  Only an escaped exception ends a call
    for a valid request without a status write. *)
Theorem status_written_last req (st : state W) u w o st' :
  valid req ->
  uuid4_str (world st) = (u, w) ->
  create_store P req st = (o, st') ->
  let during := drop (length (journal st)) (journal st') in
  (marks during = [] /\ exists e, o = Uncaught e)
  \/ (exists s,
        marks during = [(Text.take 8 u, s)]
        /\ last during = Some (Marked (Text.take 8 u) s)
        /\ (s = Failed \/ s = Ready)).
Proof.
  intros Hv Hu Hrun during. subst during.
  destruct (create_store_ends _ _ _ _ _ _ Hv Hu Hrun)
    as (t & s & evs & _ & Hj & Hend).
  rewrite Hj, drop_app_length.
  destruct Hend as [(e & -> & _ & ->)|[(d' & -> & _ & ->)|Hns]].
  { left. split; [reflexivity | now exists e]. }
  { right. exists Failed. repeat split. now left. }
  destruct Hns as [(d' & -> & _ & ->)|(evs1 & -> & t1 & t2 & Hsec)].
  { right. exists Failed. repeat split. now left. }
  destruct Hsec as [(d' & -> & _ & ->)|(evs2 & -> & Hin)].
  { right. exists Failed. repeat split. now left. }
  destruct Hin as [(d' & -> & _ & ->)|(-> & _ & ->)].
  - right. exists Failed. repeat split. now left.
  - right. exists Ready. repeat split. now right.
Qed.

(** X8. A provision call changes the registry at one key at most, the id
    it generates: every record stored under another key is what it was,
    and no key is lost. *)
Theorem provision_keeps_other_records req (st : state W) u w o st' :
  uuid4_str (world st) = (u, w) ->
  create_store P req st = (o, st') ->
  (forall k, k <> Text.take 8 u -> stores st' !! k = stores st !! k)
  /\ dom (stores st) ⊆ dom (stores st').
Proof.
  intros Hu Hrun.
  destruct (create_store_shape _ _ _ _ Hrun) as [(_ & _ & ->)|[_ Hshape]];
    [easy|].
  destruct Hshape as (u' & w' & t & s & evs & Hu' & Hs & _).
  rewrite Hu in Hu'. injection Hu' as <- <-. rewrite Hs. split.
  - intros k Hk. now apply lookup_insert_ne.
  - rewrite dom_insert_L. set_solver.
Qed.

(** *** Three more paths through a provision call *)

(** X9. When the conflict check passes and all three steps succeed, the
    call returns the response of the record, now Ready; exactly four
    commands were launched, and neither clean-up command is among them. *)
Theorem provision_succeeds req (st : state W)
    u w1 t w2 st2 pn wn t1 w3 t2 w4 ps ws pi wi :
  let sid := Text.take 8 u in
  let ns := stack_name req sid in
  let secret := kubectl_create_secret (ns +:+ "-db-secret") t1 t2 ns in
  let install := helm_cmd P ns ns (norm_env req) (norm_domain req) in
  valid req ->
  uuid4_str (world st) = (u, w1) ->
  utcnow_isoformat w1 = (t, w2) ->
  ingress_host_exists (norm_domain req) (registered req u t w2 st)
  = (Return None, st2) ->
  subprocess_run (kubectl_create_namespace ns) None 600 (world st2)
  = (pn, wn) ->
  creation_failed (exit_code pn) (captured_out pn) (captured_err pn) = false ->
  token_urlsafe 16 wn = (t1, w3) ->
  token_urlsafe 16 w3 = (t2, w4) ->
  subprocess_run secret None 600 w4 = (ps, ws) ->
  creation_failed (exit_code ps) (captured_out ps) (captured_err ps) = false ->
  subprocess_run install (Some (REPO_ROOT P)) 600 ws = (pi, wi) ->
  exit_code pi = 0 ->
  create_store P req st
  = (Return (response_of (with_status Ready (pending req u t))),
     {| world := wi;
        stores := <[sid := with_status Ready (pending req u t)]> (stores st);
        journal := journal st
                   ++ [DrewUuid u; Stored sid;
                       Ran kubectl_get_ingress None 600;
                       Ran (kubectl_create_namespace ns) None 600;
                       Ran secret None 600;
                       Ran install (Some (REPO_ROOT P)) 600;
                       Marked sid Ready] |}).
Proof.
  intros sid ns secret install Hv Hu Ht Hc Hpn Hn Ht1 Ht2 Hps Hs Hpi Hrc.
  rewrite (create_store_registers _ _ _ _ _ _ Hv Hu Ht), Hc.
  destruct (ingress_host_exists_frame _ _ _ _ Hc) as (Hst & Hj & _).
  pose proof (registered_lookup req u t w2 st) as Hr. rewrite <- Hst in Hr.
  fold sid ns in Hr |- *.
  rewrite (step_namespace_answer _ _ _ _ _ _ _ _ _ Hr Hpn), Hn.
  erewrite step_secret_answer; cycle 1.
  { cbn [log_event stores]. exact Hr. }
  { cbn [log_event world]. exact Ht1. }
  { exact Ht2. }
  { exact Hps. }
  fold secret. rewrite Hs.
  erewrite step_install_ready; cycle 1.
  { cbn [log_event stores]. exact Hr. }
  { cbn [log_event world]. exact Hpi. }
  { exact Hrc. }
  tidy. rewrite Hst, Hj. unfold registered. tidy.
  now rewrite insert_insert_eq.
Qed.

(** X10. When the namespace creation fails, the call stops there: the
    record is marked Failed and HTTP 500 carries the whole diagnostic; no
    secret and no release is created, and nothing is cleaned up. *)
Theorem provision_namespace_failure_stops req (st : state W)
    u w1 t w2 st2 pn wn :
  let sid := Text.take 8 u in
  let ns := stack_name req sid in
  valid req ->
  uuid4_str (world st) = (u, w1) ->
  utcnow_isoformat w1 = (t, w2) ->
  ingress_host_exists (norm_domain req) (registered req u t w2 st)
  = (Return None, st2) ->
  subprocess_run (kubectl_create_namespace ns) None 600 (world st2)
  = (pn, wn) ->
  creation_failed (exit_code pn) (captured_out pn) (captured_err pn) = true ->
  create_store P req st
  = (HTTPException 500 ("Namespace creation failed: " +:+ diagnostic pn),
     {| world := wn;
        stores := <[sid := with_status Failed (pending req u t)]> (stores st);
        journal := journal st
                   ++ [DrewUuid u; Stored sid;
                       Ran kubectl_get_ingress None 600;
                       Ran (kubectl_create_namespace ns) None 600;
                       Marked sid Failed] |}).
Proof.
  intros sid ns Hv Hu Ht Hc Hpn Hn.
  rewrite (create_store_registers _ _ _ _ _ _ Hv Hu Ht), Hc.
  destruct (ingress_host_exists_frame _ _ _ _ Hc) as (Hst & Hj & _).
  pose proof (registered_lookup req u t w2 st) as Hr. rewrite <- Hst in Hr.
  fold sid ns in Hr |- *.
  rewrite (step_namespace_answer _ _ _ _ _ _ _ _ _ Hr Hpn), Hn.
  rewrite Hst, Hj. unfold registered. tidy.
  now rewrite insert_insert_eq.
Qed.

(** X11. When the secret creation fails, the call stops there: the record
    is marked Failed and HTTP 500 is raised; the namespace created one
    step earlier is left in place, as no deletion is launched. *)
Theorem provision_secret_failure_keeps_namespace req (st : state W)
    u w1 t w2 st2 pn wn t1 w3 t2 w4 ps ws :
  let sid := Text.take 8 u in
  let ns := stack_name req sid in
  let secret := kubectl_create_secret (ns +:+ "-db-secret") t1 t2 ns in
  valid req ->
  uuid4_str (world st) = (u, w1) ->
  utcnow_isoformat w1 = (t, w2) ->
  ingress_host_exists (norm_domain req) (registered req u t w2 st)
  = (Return None, st2) ->
  subprocess_run (kubectl_create_namespace ns) None 600 (world st2)
  = (pn, wn) ->
  creation_failed (exit_code pn) (captured_out pn) (captured_err pn) = false ->
  token_urlsafe 16 wn = (t1, w3) ->
  token_urlsafe 16 w3 = (t2, w4) ->
  subprocess_run secret None 600 w4 = (ps, ws) ->
  creation_failed (exit_code ps) (captured_out ps) (captured_err ps) = true ->
  create_store P req st
  = (HTTPException 500 ("Secret creation failed: " +:+ diagnostic ps),
     {| world := ws;
        stores := <[sid := with_status Failed (pending req u t)]> (stores st);
        journal := journal st
                   ++ [DrewUuid u; Stored sid;
                       Ran kubectl_get_ingress None 600;
                       Ran (kubectl_create_namespace ns) None 600;
                       Ran secret None 600;
                       Marked sid Failed] |}).
Proof.
  intros sid ns secret Hv Hu Ht Hc Hpn Hn Ht1 Ht2 Hps Hs.
  rewrite (create_store_registers _ _ _ _ _ _ Hv Hu Ht), Hc.
  destruct (ingress_host_exists_frame _ _ _ _ Hc) as (Hst & Hj & _).
  pose proof (registered_lookup req u t w2 st) as Hr. rewrite <- Hst in Hr.
  fold sid ns in Hr |- *.
  rewrite (step_namespace_answer _ _ _ _ _ _ _ _ _ Hr Hpn), Hn.
  erewrite step_secret_answer; cycle 1.
  { cbn [log_event stores]. exact Hr. }
  { cbn [log_event world]. exact Ht1. }
  { exact Ht2. }
  { exact Hps. }
  fold secret. rewrite Hs.
  tidy. rewrite Hst, Hj. unfold registered. tidy.
  now rewrite insert_insert_eq.
Qed.

(** *** Provisioning and deprovisioning together *)

(** X12. Deprovisioning a store that a provision call has just returned
    undoes the call in the registry: when the id was free before, the
    registry is again what it was.  The two teardown commands name the
    namespace and the release of the response. *)
Theorem provision_then_deprovision req (st : state W) resp st1 o st2 :
  create_store P req st = (Return resp, st1) ->
  stores st !! resp_id resp = None ->
  delete_store (resp_id resp) st1 = (o, st2) ->
  stores st2 = stores st
  /\ (exists answer, o = Return answer)
  /\ journal st2
     = journal st1
       ++ [Ran (helm_uninstall (resp_helm_release resp) (resp_namespace resp))
             None 600;
           Ran (kubectl_delete_namespace (resp_namespace resp)) None 600;
           Removed (resp_id resp)].
Proof.
  intros Hrun Hfree Hdel.
  destruct (create_store_shape _ _ _ _ Hrun) as [(_ & [=] & _)|[_ Hshape]].
  destruct Hshape as (u & w & t & s & evs & _ & Hs & _ & _ & _ & _ & Hresp).
  specialize (Hresp _ eq_refl). subst resp.
  cbn [response_of resp_id resp_namespace resp_helm_release with_status
       pending id namespace helm_release] in *.
  destruct (delete_store_cases _ _ _ _ Hdel)
    as [(Hnone & _)|(meta & answer & Hmeta & -> & Hs2 & Hj2)].
  { rewrite Hs, lookup_insert_eq in Hnone. discriminate. }
  rewrite Hs, lookup_insert_eq in Hmeta. injection Hmeta as <-.
  rewrite Hs2, Hj2, Hs, delete_insert_eq.
  split; [now apply delete_id|]. split; [now exists answer | reflexivity].
Qed.

(** *** The conflict checker, whatever the listing *)

(** X13. The conflict check is read-only: whatever it answers, the
    registry is what it was, exactly one command was launched, the route
    listing, and no HTTP error is raised. *)
Theorem conflict_check_read_only host (st : state W) o st' :
  ingress_host_exists host st = (o, st') ->
  stores st' = stores st
  /\ commands (journal st') = commands (journal st) ++ [kubectl_get_ingress]
  /\ forall c d, o <> HTTPException c d.
Proof.
  intros Hrun.
  destruct (ingress_host_exists_frame _ _ _ _ Hrun) as (Hs & Hj & Hno).
  split; [exact Hs|]. split; [|exact Hno].
  now rewrite Hj, commands_app.
Qed.

(** X14. A reported conflict is never spurious, whatever the shape of the
    listing: the listing command exited with 0, its output decoded, and
    one item of the decoded listing has a rule whose host is exactly the
    queried string; the namespace and name reported are those of the
    metadata of that item. *)
Theorem reported_conflict_is_real host (st : state W) c st' :
  ingress_host_exists host st = (Return (Some c), st') ->
  exists p w payload item r,
    subprocess_run kubectl_get_ingress None 600 (world st) = (p, w)
    /\ exit_code p = 0
    /\ json_loads (captured_out p) = Some payload
    /\ In item
         (Listing.elements (Listing.field "items" (JArr []) payload))
    /\ In r (Listing.rules_of item)
    /\ Listing.field "host" JNull r = JStr host
    /\ conflict_namespace c
       = Listing.field "namespace" (JStr EmptyString)
           (Listing.field "metadata" (JObj []) item)
    /\ conflict_ingress c
       = Listing.field "name" (JStr EmptyString)
           (Listing.field "metadata" (JObj []) item).
Proof.
  destruct (subprocess_run kubectl_get_ingress None 600 (world st))
    as [p w] eqn:Hp.
  unfold ingress_host_exists. ran Hp.
  destruct (Z.eq_dec (exit_code p) 0) as [Hz|Hnz].
  2:{ apply Z.eqb_neq in Hnz. rewrite Hnz. discriminate. }
  rewrite Hz. cbn [Z.eqb negb orb].
  destruct (Text.is_empty (captured_out p)); [discriminate|].
  destruct (json_loads (captured_out p)) as [payload|] eqn:Hdec;
    [|discriminate].
  unfold lift. intros [= Hscan _].
  apply ScanFacts.scan_payload_sound in Hscan
    as (item & r & Hitem & Hr & Hh & ->).
  exists p, w, payload, item, r. now repeat split.
Qed.

(** X15. On a well-formed listing a taken host is always found: the
    checker answers "no conflict" exactly when no rule of any listed
    route names the queried host. *)
Theorem taken_host_is_reported host (st : state W) p w payload :
  subprocess_run kubectl_get_ingress None 600 (world st) = (p, w) ->
  exit_code p = 0 ->
  captured_out p <> EmptyString ->
  json_loads (captured_out p) = Some payload ->
  Listing.well_formed payload = true ->
  fst (ingress_host_exists host st) = Return None <->
  forall item r,
    In item (Listing.elements (Listing.field "items" (JArr []) payload)) ->
    In r (Listing.rules_of item) ->
    Listing.field "host" JNull r <> JStr host.
Proof.
  intros Hp Hrc Hout Hdec Hwf.
  destruct (conflict_check_answers host st p w Hp) as (_ & _ & Hfound).
  rewrite (Hfound payload Hrc Hout Hdec Hwf). cbn [fst].
  rewrite <- ScanFacts.first_match_none.
  split; [now intros [= ->] | now intros ->].
Qed.

(** X16. The scan stops at the first match: when the items up to and
    including the first matching one are well-formed, the match is
    reported whatever follows them in the listing, well-formed or not. *)
Theorem first_match_ignores_rest host (st : state W) p w kv pre rest c :
  subprocess_run kubectl_get_ingress None 600 (world st) = (p, w) ->
  exit_code p = 0 ->
  captured_out p <> EmptyString ->
  json_loads (captured_out p) = Some (JObj kv) ->
  Py.assoc "items" kv = Some (JArr (pre ++ rest)) ->
  forallb Listing.item_well_formed pre = true ->
  Listing.first_match host (JObj [("items", JArr pre)]) = Some c ->
  ingress_host_exists host st
  = (Return (Some c), log_event (Ran kubectl_get_ingress None 600) w st).
Proof.
  intros Hp Hrc Hout Hdec Hitems Hwf Hfirst.
  unfold ingress_host_exists. ran Hp.
  rewrite Hrc, (is_empty_false _ Hout), Hdec. cbn [Z.eqb negb orb].
  unfold lift, scan_payload. cbn [Py.get]. rewrite Hitems.
  cbn -[scan_items].
  unfold Listing.first_match in Hfirst. cbn in Hfirst.
  destruct (List.find _ _) as [[c' h]|] eqn:Hfind; [|discriminate].
  cbn in Hfirst. injection Hfirst as ->.
  now rewrite (ScanFacts.scan_items_stops _ _ rest _ _ Hwf Hfind).
Qed.

(** *** The registry across requests *)

Lemma pending_ok req u t s :
  valid req -> record_ok (Text.take 8 u) (with_status s (pending req u t)).
Proof. intros [Hn Hd]. now repeat split. Qed.

Lemma handle_keeps_registry_ok rq (st : state W) :
  registry_ok (stores st) -> registry_ok (stores (handle P rq st)).
Proof.
  intros Hok. destruct rq as [req|sid]; cbn [handle].
  - destruct (create_store P req st) as [o st'] eqn:Hrun. cbn [snd].
    destruct (create_store_shape _ _ _ _ Hrun) as [(_ & _ & ->)|[Hv Hshape]];
      [exact Hok|].
    destruct Hshape as (u & w & t & s & evs & _ & Hs & _). rewrite Hs.
    apply map_Forall_insert_2; [now apply pending_ok | exact Hok].
  - destruct (delete_store sid st) as [o st'] eqn:Hrun. cbn [snd].
    destruct (delete_store_cases _ _ _ _ Hrun)
      as [(_ & _ & ->)|(meta & resp & _ & _ & Hs & _)]; [exact Hok|].
    rewrite Hs. now apply map_Forall_delete.
Qed.

(** X18. Whatever provision and deprovision requests are served, in
    whatever order and with whatever answers of the commands, every
    record of the registry sits
    under its own id, has the one name [<store_name>-<id>] as namespace
    and as release, and has a non-empty store name and domain. *)
Theorem registry_invariant rqs (st : state W) :
  registry_ok (stores st) -> registry_ok (stores (serve P rqs st)).
Proof.
  revert st. induction rqs as [|rq rqs IH]; intros st Hok; [exact Hok|].
  cbn [serve]. apply IH. now apply handle_keeps_registry_ok.
Qed.

(** X19. In such a registry a deprovision call tears down the stack of
    its own store and no other: both commands name [<store_name>-<id>]
    for the id deprovisioned. *)
Theorem deprovision_targets_own_stack sid (st : state W) meta o st' :
  registry_ok (stores st) ->
  stores st !! sid = Some meta ->
  delete_store sid st = (o, st') ->
  let name := store_name meta +:+ "-" +:+ sid in
  commands (drop (length (journal st)) (journal st'))
  = [helm_uninstall name name; kubectl_delete_namespace name].
Proof.
  intros Hok Hmeta Hrun name.
  destruct (Hok _ _ Hmeta) as (_ & Hns & Hrel & _).
  destruct (delete_store_cases _ _ _ _ Hrun)
    as [(Hnone & _)|(meta' & resp & Hmeta' & _ & _ & Hj)]; [congruence|].
  rewrite Hmeta in Hmeta'. injection Hmeta' as <-.
  rewrite Hj, drop_app_length, Hrel, Hns. reflexivity.
Qed.

(** X20. The text fields of a registered record are in normal form:
    trimming and lower-casing the stored store name or environment, or
    trimming the stored domain, gives the stored value back. *)
Theorem stored_fields_are_normal req (st : state W) u w o st' :
  valid req ->
  uuid4_str (world st) = (u, w) ->
  create_store P req st = (o, st') ->
  exists r,
    stores st' !! Text.take 8 u = Some r
    /\ Text.lower (Text.strip (store_name r)) = store_name r
    /\ Text.strip (domain r) = domain r
    /\ Text.lower (Text.strip (environment r)) = environment r.
Proof.
  intros Hv Hu Hrun.
  destruct (create_store_shape _ _ _ _ Hrun) as [[Hnv _]|[_ Hshape]];
    [contradiction|].
  destruct Hshape as (u' & w' & t & s & evs & Hu' & Hs & _).
  rewrite Hu in Hu'. injection Hu' as <- <-.
  exists (with_status s (pending req u t)). rewrite Hs.
  split; [apply lookup_insert_eq|].
  cbn [with_status pending store_name domain environment].
  unfold norm_name, norm_domain, norm_env.
  rewrite <- !TextFacts.strip_lower, !TrimFacts.strip_idem,
    !TextFacts.strip_lower, !TrimFacts.lower_idem.
  now repeat split.
Qed.

End HandlerFacts.

(** ** Start-up *)

(** X21. When [_init_paths] returns, what it returns has been checked:
    the repository root and the chart directory are directories, both
    values files are files, so the profile chosen for any environment is
    a file that was there at start-up; and the two profiles are different
    files. *)
Theorem init_paths_validated fs file p :
  _init_paths fs file = Started p ->
  isdir fs (REPO_ROOT p) = true
  /\ isdir fs (CHART_PATH p) = true
  /\ (forall env, isfile fs (values_file p env) = true)
  /\ VALUES_LOCAL p <> VALUES_PROD p.
Proof.
  unfold _init_paths.
  destruct (isdir fs (abspath fs _)) eqn:Hroot; [|discriminate].
  destruct (isdir fs (Path.join _ "woocommerce")) eqn:Hchart; [|discriminate].
  destruct (isfile fs (Path.join _ "values-local.yaml")) eqn:Hlocal;
    [|discriminate].
  destruct (isfile fs (Path.join _ "values-prod.yaml")) eqn:Hprod;
    [|discriminate].
  cbn [negb]. intros [= <-]. cbn [REPO_ROOT CHART_PATH VALUES_LOCAL VALUES_PROD].
  split; [exact Hroot|]. split; [exact Hchart|]. split.
  - intros env. unfold values_file. cbn [VALUES_LOCAL VALUES_PROD].
    now destruct (String.eqb env "local").
  - set (root := abspath fs _).
    unfold Path.join. cbn [Path.starts_with_sep].
    destruct (Text.is_empty root || Path.ends_with_sep root); intros Heq.
    + apply TrimFacts.append_cancel in Heq. discriminate.
    + apply TrimFacts.append_cancel in Heq. discriminate.
Qed.

(** * Scenarios on the scripted platform *)

Section Scenarios.

Existing Instance sample_platform.

Ltac computed := vm_compute; reflexivity.

(** Scenario 3 of the specification: the release installation fails, the
    two clean-up commands fail as well, and both are still launched once,
    in order, before the record is marked. *)
Lemma provision_install_failure_rolls_back_witness :
  fst (create_store sample_paths acme (fresh stormy))
  = HTTPException 500 "helm install failed: Error: timed out waiting"
  /\ skipn 5 (journal (snd (create_store sample_paths acme (fresh stormy))))
     = [Ran ["helm"; "install"; "acme-1b9d6bcd";
             "/srv/platform/helm/woocommerce"; "--namespace"; "acme-1b9d6bcd";
             "--values"; "/srv/platform/values-local.yaml";
             "--set"; "ingress.host=acme.example.com";
             "--set"; "storeName=acme-1b9d6bcd";
             "--wait"; "--timeout"; "10m"] (Some "/srv/platform") 600;
        Ran ["helm"; "uninstall"; "acme-1b9d6bcd"; "-n"; "acme-1b9d6bcd"]
          None 600;
        Ran ["kubectl"; "delete"; "namespace"; "acme-1b9d6bcd"] None 600;
        Marked "1b9d6bcd" Failed].
Proof.
  erewrite provision_install_failure_rolls_back; cycle 1.
  - split; discriminate.
  - computed.
  - computed.
  - computed.
  - computed.
  - computed.
  - computed.
  - computed.
  - computed.
  - computed.
  - computed.
  - discriminate.
  - computed.
  - computed.
  - split; computed.
Defined.

(** Scenario 2 of the specification: the host is taken. *)
Lemma provision_conflict_stops_witness :
  fst (create_store sample_paths acme (fresh taken))
  = HTTPException 409
      "ingress host conflict: host 'acme.example.com' already used in shop-0a1b2c3d/shop"
  /\ commands (journal (snd (create_store sample_paths acme (fresh taken))))
     = [kubectl_get_ingress].
Proof.
  edestruct (provision_conflict_stops sample_paths acme (fresh taken))
    as [Hrun Hcmds].
  - split; discriminate.
  - computed.
  - computed.
  - computed.
  - rewrite Hrun. cbn [fst snd journal]. split; [computed | exact Hcmds].
Defined.

(** A namespace that exists already, reported on the standard error with
    exit code 1, does not stop provisioning: the store gets ready. *)
Lemma idempotent_create_convention_witness :
  fst (step_namespace sample_paths "1b9d6bcd" "acme-1b9d6bcd" "acme-1b9d6bcd"
         "local" "acme.example.com"
         (serving (world_of [existing; fine; fine])))
  = Return (response_of acme_record).
Proof.
  edestruct (idempotent_create_convention sample_paths "1b9d6bcd"
               "acme-1b9d6bcd" "acme-1b9d6bcd" "local" "acme.example.com"
               (serving (world_of [existing; fine; fine])))
    as [Hns _].
  - computed.
  - computed.
  - computed.
  - computed.
  - computed.
  - destruct Hns as [Hgo _]; [discriminate|].
    rewrite Hgo; [computed|].
    exists "Error from server (AlreadyExists): namespaces ",
      "already exists", EmptyString.
    split; reflexivity.
Defined.

(** Scenario 1 of the specification: the names derived for [acme]. *)
Lemma derived_names_agree_witness :
  exists r,
    stores (snd (create_store sample_paths acme (fresh calm))) !! "1b9d6bcd"
    = Some r
    /\ namespace r = "acme-1b9d6bcd"
    /\ helm_release r = "acme-1b9d6bcd".
Proof.
  edestruct (derived_names_agree sample_paths acme (fresh calm))
    as (r & Hl & _ & Heq & Hns & _).
  - split; discriminate.
  - computed.
  - computed.
  - exists r. split; [exact Hl|]. rewrite <- Heq, Hns. split; computed.
Defined.

(** Scenario 4 of the specification: the uninstall fails, the namespace
    deletion succeeds, the record is gone. *)
Lemma deprovision_known_id_witness :
  fst (delete_store "1b9d6bcd" (serving half_gone))
  = Return (UninstallError "Error: uninstall: release not found" 0
              "namespace deleted" EmptyString)
  /\ stores (snd (delete_store "1b9d6bcd" (serving half_gone))) !! "1b9d6bcd"
     = None.
Proof.
  erewrite deprovision_known_id; cycle 1.
  - computed.
  - computed.
  - computed.
  - split; computed.
Defined.

Lemma deprovision_unknown_id_witness :
  delete_store "0badf00d" (serving half_gone)
  = (HTTPException 404 "Store not found", serving half_gone).
Proof. apply deprovision_unknown_id. computed. Defined.


(** C9 on two calls whose UUIDs share their first eight characters: the
    two UUIDs differ, yet both calls get the id made of those characters,
    so the ids of the sequence are not pairwise distinct; the second
    insertion replaces the record of the first store, and the registry
    holds one record where two stores were provisioned. *)
Theorem shared_prefix_overwrites :
  let st' := snd (provision_all sample_paths [acme; globex] (fresh twice)) in
  uuid_a <> uuid_b
  /\ stored_ids (journal st') = ["1b9d6bcd"; "1b9d6bcd"]
  /\ ~ NoDup (stored_ids (journal st'))
  /\ store_name <$> stores st' !! "1b9d6bcd" = Some "globex"
  /\ size (stores st') = 1%nat.
Proof.
  cbv zeta. split; [discriminate|]. split; [computed|].
  split; [|split; computed].
  intros Hnd. apply (bool_decide_pack _) in Hnd. vm_compute in Hnd. exact Hnd.
Qed.

(** C3, as stated, fails: the namespace creation exits with 1 and prints
    "already exists" on its standard output, but its standard error is
    not empty and does not say so; the combined output contains the words,
    yet the call stops with HTTP 500 before any secret is created. *)
Lemma combined_output_counterexample :
  let run := create_store sample_paths acme (fresh mixed) in
  exit_code split_streams <> 0
  /\ Text.contains "already exists"
       (Text.lower (captured_out split_streams +:+ captured_err split_streams))
     = true
  /\ fst run
     = HTTPException 500 "Namespace creation failed: Warning: deprecated flag"
  /\ commands (journal (snd run))
     = [kubectl_get_ingress; kubectl_create_namespace "acme-1b9d6bcd"]
  /\ status <$> stores (snd run) !! "1b9d6bcd" = Some Failed.
Proof. cbv zeta. split; [discriminate|]. repeat split; computed. Qed.

(** C7 on a listing of the wrong shape: the command succeeds and prints a
    JSON array; the text decodes, the checker asks the array for its
    [items], and the [AttributeError] leaves the checker and the handler.
    The record stays in the registry as Provisioning. *)
Theorem wrong_shape_listing_raises :
  json_loads array_text = Some (JArr [])
  /\ fst (ingress_host_exists "acme.example.com" (fresh odd))
     = Uncaught AttributeError
  /\ fst (create_store sample_paths acme (fresh odd)) = Uncaught AttributeError
  /\ status <$> stores (snd (create_store sample_paths acme (fresh odd)))
                  !! "1b9d6bcd"
     = Some Provisioning.
Proof. repeat split; computed. Qed.

(** C8 on a failed namespace creation: the detail echoes all 1001
    characters of the diagnostic, uncut, whereas the same diagnostic after
    a failed release installation would be cut at 1000. *)
Theorem namespace_failure_echo_unbounded :
  String.length long_text = 1001%nat
  /\ fst (create_store sample_paths acme (fresh verbose))
     = HTTPException 500 ("Namespace creation failed: " +:+ long_text)
  /\ String.length (Text.take 1000 long_text) = 1000%nat.
Proof. repeat split; computed. Qed.

(** The spellings of "local" the normalisation accepts. *)
Lemma local_spellings :
  Text.lower (Text.strip "LOCAL") = "local"
  /\ Text.lower (Text.strip " Local ") = "local"
  /\ values_file sample_paths (Text.lower (Text.strip " Local "))
     = VALUES_LOCAL sample_paths
  /\ values_file sample_paths (Text.lower (Text.strip "staging"))
     = VALUES_PROD sample_paths.
Proof. repeat split; computed. Qed.

(** ** Scenarios for the further properties *)

Lemma deprovision_touches_one_record_witness :
  stores (snd (delete_store "1b9d6bcd" (serving half_gone))) !! "1b9d6bcd"
  = None.
Proof.
  edestruct (deprovision_touches_one_record "1b9d6bcd" (serving half_gone))
    as (_ & _ & Hgone & _).
  - computed.
  - exact Hgone.
Defined.

Lemma deprovision_twice_witness :
  delete_store "1b9d6bcd" (snd (delete_store "1b9d6bcd" (serving half_gone)))
  = (HTTPException 404 "Store not found",
     snd (delete_store "1b9d6bcd" (serving half_gone))).
Proof. eapply (deprovision_twice _ (serving half_gone)). computed. Defined.

Lemma blank_request_rejected_witness :
  create_store sample_paths blank_name (fresh calm)
  = (HTTPException 400 "store_name and domain are required", fresh calm).
Proof.
  apply (proj1 (blank_request_rejected sample_paths blank_name (fresh calm))).
  left. reflexivity.
Defined.

Lemma outcome_matches_status_witness :
  status <$> stores (snd (create_store sample_paths acme (fresh stormy)))
               !! "1b9d6bcd"
  = Some Failed.
Proof.
  edestruct (outcome_matches_status sample_paths acme (fresh stormy))
    as (r & Hl & Hm).
  - split; discriminate.
  - computed.
  - computed.
  - cbv beta iota in Hm. destruct Hm as [_ Hst].
    rewrite <- Hst. exact (f_equal (fmap status) Hl).
Defined.

Lemma provision_command_sequences_witness :
  exists resp,
    fst (create_store sample_paths acme (fresh calm)) = Return resp
    /\ length (commands
                 (journal (snd (create_store sample_paths acme (fresh calm)))))
       = 4%nat.
Proof.
  edestruct (provision_command_sequences sample_paths acme (fresh calm))
    as (t1 & t2 & [[[resp Hresp] Hcmds]|[Hno _]]).
  - split; discriminate.
  - computed.
  - computed.
  - exists resp. split; [exact Hresp | exact (f_equal length Hcmds)].
  - exfalso. eapply Hno. reflexivity.
Defined.

Lemma status_written_last_witness :
  last (journal (snd (create_store sample_paths acme (fresh calm))))
  = Some (Marked "1b9d6bcd" Ready).
Proof.
  edestruct (status_written_last sample_paths acme (fresh calm))
    as [[_ [e He]]|(s & Hmarks & Hlast & _)].
  - split; discriminate.
  - computed.
  - computed.
  - discriminate He.
  - vm_compute in Hmarks. injection Hmarks as <-. exact Hlast.
Defined.

Lemma provision_keeps_other_records_witness :
  stores (snd (create_store sample_paths globex (serving later)))
    !! "1b9d6bcd"
  = Some acme_record.
Proof.
  edestruct (provision_keeps_other_records sample_paths globex
               (serving later)) as [Hkeep _].
  - computed.
  - computed.
  - etransitivity; [apply Hkeep; discriminate | computed].
Defined.

(** Scenario 1 of the specification. *)
Lemma provision_succeeds_witness :
  fst (create_store sample_paths acme (fresh calm))
  = Return {| resp_id := "1b9d6bcd"; resp_store_name := "acme";
              resp_namespace := "acme-1b9d6bcd";
              resp_domain := "acme.example.com"; resp_status := "Ready";
              resp_helm_release := "acme-1b9d6bcd";
              resp_created_at := Some "2026-01-01T00:00:00+00:00" |}.
Proof.
  erewrite provision_succeeds; cycle 1.
  - split; discriminate.
  - computed.
  - computed.
  - computed.
  - computed.
  - computed.
  - computed.
  - computed.
  - computed.
  - computed.
  - computed.
  - computed.
  - computed.
Defined.

Lemma provision_namespace_failure_stops_witness :
  fst (create_store sample_paths acme (fresh refused))
  = HTTPException 500 "Namespace creation failed: Error: quota exceeded"
  /\ commands (journal (snd (create_store sample_paths acme (fresh refused))))
     = [kubectl_get_ingress; kubectl_create_namespace "acme-1b9d6bcd"].
Proof.
  erewrite provision_namespace_failure_stops; cycle 1.
  - split; discriminate.
  - computed.
  - computed.
  - computed.
  - computed.
  - computed.
  - split; computed.
Defined.

Lemma provision_secret_failure_keeps_namespace_witness :
  fst (create_store sample_paths acme (fresh denied))
  = HTTPException 500 "Secret creation failed: Error: forbidden"
  /\ length
       (commands (journal (snd (create_store sample_paths acme (fresh denied)))))
     = 3%nat.
Proof.
  erewrite provision_secret_failure_keeps_namespace; cycle 1.
  - split; discriminate.
  - computed.
  - computed.
  - computed.
  - computed.
  - computed.
  - computed.
  - computed.
  - computed.
  - computed.
  - split; computed.
Defined.

Lemma provision_then_deprovision_witness :
  stores (snd (delete_store "1b9d6bcd"
                 (snd (create_store sample_paths acme (fresh full_cycle)))))
  = ∅.
Proof.
  edestruct (provision_then_deprovision sample_paths acme (fresh full_cycle))
    as (Hback & _).
  - computed.
  - computed.
  - computed.
  - exact Hback.
Defined.

Lemma conflict_check_read_only_witness :
  commands (journal (snd (ingress_host_exists "acme.example.com"
                            (fresh taken))))
  = [kubectl_get_ingress].
Proof.
  edestruct (conflict_check_read_only "acme.example.com" (fresh taken))
    as (_ & Hcmds & _).
  - computed.
  - exact Hcmds.
Defined.

Lemma reported_conflict_is_real_witness :
  exists item r,
    In item (Listing.elements
               (Listing.field "items" (JArr []) taken_payload))
    /\ In r (Listing.rules_of item)
    /\ Listing.field "host" JNull r = JStr "acme.example.com".
Proof.
  edestruct (reported_conflict_is_real "acme.example.com" (fresh taken))
    as (p & w & payload & item & r & Hp & _ & Hdec & Hitem & Hr & Hh & _).
  - computed.
  - vm_compute in Hp. injection Hp as <- <-.
    vm_compute in Hdec. injection Hdec as <-.
    exists item, r. split; [exact Hitem|]. split; [exact Hr | exact Hh].
Defined.

(** On the listing whose one route claims [acme.example.com], that host
    is found and another host is not. *)
Lemma taken_host_is_reported_witness :
  fst (ingress_host_exists "acme.example.com" (fresh taken)) <> Return None
  /\ fst (ingress_host_exists "globex.example.com" (fresh taken))
     = Return None.
Proof.
  split.
  - intros Hnone.
    edestruct (taken_host_is_reported "acme.example.com" (fresh taken))
      as [Hfound _].
    + computed.
    + computed.
    + discriminate.
    + computed.
    + computed.
    + apply (Hfound Hnone shop_route
               (JObj [("host", JStr "acme.example.com")])).
      * vm_compute. left. reflexivity.
      * vm_compute. left. reflexivity.
      * reflexivity.
  - eapply (taken_host_is_reported "globex.example.com" (fresh taken)).
    + computed.
    + computed.
    + discriminate.
    + computed.
    + computed.
    + intros item r Hitem Hr. vm_compute in Hitem.
      destruct Hitem as [<-|[]]. vm_compute in Hr.
      destruct Hr as [<-|[]]. discriminate.
Defined.

Lemma first_match_ignores_rest_witness :
  fst (ingress_host_exists (H := ragged_platform) "acme.example.com"
         (fresh ragged))
  = Return (Some {| conflict_namespace := JStr "shop-0a1b2c3d";
                    conflict_ingress := JStr "shop" |}).
Proof.
  erewrite (first_match_ignores_rest (H := ragged_platform)
              "acme.example.com" (fresh ragged) _ _ _ [shop_route] [JInt 7]);
    cycle 1.
  - computed.
  - computed.
  - discriminate.
  - computed.
  - computed.
  - computed.
  - computed.
  - reflexivity.
Defined.

Lemma registry_invariant_witness :
  exists r,
    stores (serve sample_paths busy_requests (serving busy)) !! "7c9e6679"
    = Some r
    /\ store_name r = "globex"
    /\ record_ok "7c9e6679" r
    /\ stores (serve sample_paths busy_requests (serving busy)) !! "1b9d6bcd"
       = None.
Proof.
  pose proof (registry_invariant sample_paths busy_requests (serving busy))
    as Hok.
  assert (Hstart : registry_ok (stores (serving busy))).
  { intros k r Hk. unfold serving in Hk. cbn [stores] in Hk.
    apply lookup_singleton_Some in Hk as [<- <-].
    repeat split; discriminate. }
  specialize (Hok Hstart).
  destruct (stores (serve sample_paths busy_requests (serving busy))
              !! "7c9e6679") as [r|] eqn:Hr; [|vm_compute in Hr; discriminate].
  exists r. split; [reflexivity|].
  split; [|split; [exact (Hok _ _ Hr) | computed]].
  vm_compute in Hr. now injection Hr as <-.
Defined.

Lemma deprovision_targets_own_stack_witness :
  commands (journal (snd (delete_store "1b9d6bcd" (serving half_gone))))
  = [helm_uninstall "acme-1b9d6bcd" "acme-1b9d6bcd";
     kubectl_delete_namespace "acme-1b9d6bcd"].
Proof.
  eapply (deprovision_targets_own_stack "1b9d6bcd" (serving half_gone)
            acme_record).
  - intros k r Hk. unfold serving in Hk. cbn [stores] in Hk.
    apply lookup_singleton_Some in Hk as [<- <-].
    repeat split; discriminate.
  - computed.
  - computed.
Defined.

Lemma stored_fields_are_normal_witness :
  exists r,
    stores (snd (create_store sample_paths globex (fresh calm))) !! "1b9d6bcd"
    = Some r
    /\ Text.lower (Text.strip (store_name r)) = store_name r.
Proof.
  edestruct (stored_fields_are_normal sample_paths globex (fresh calm))
    as (r & Hl & Hname & _).
  - split; discriminate.
  - computed.
  - computed.
  - exists r. split; [exact Hl | exact Hname].
Defined.

Lemma init_paths_validated_witness :
  isfile sample_fs (values_file sample_paths "prod") = true
  /\ VALUES_LOCAL sample_paths <> VALUES_PROD sample_paths.
Proof.
  edestruct (init_paths_validated sample_fs
               "/srv/platform/orchestrator/main.py" sample_paths)
    as (_ & _ & Hfile & Hdiff).
  - computed.
  - split; [apply Hfile | exact Hdiff].
Defined.

End Scenarios.
